(** * Data-source services of the back end: credentials, parameters, schema sync

    A shallow embedding of
      packages/back-end/src/services/datasource.ts
      packages/back-end/src/models/InformationSchemaColumnsModel.ts
    and the properties their specification states about them.

    JavaScript objects used as maps are finite maps with string keys; the
    objects the code mutates or copies live in a heap addressed by reference;
    asynchronous functions are computations in a state-and-exception monad
    over the world they act on (heap, document store, clock, driver calls). *)

From Stdlib Require Import ZArith NArith String Ascii List DecimalString DecimalN.
From stdpp Require Import base gmap strings list fin_maps.

Local Open Scope string_scope.
Local Open Scope list_scope.
Local Open Scope Z_scope.

#[local] Arguments String.append !_ _ / : simpl nomatch.

(** ** JavaScript values held by parameter and settings objects *)

(** Connection parameters are flat objects of primitive values.  Numbers are
    the integer-valued ones (ports, limits); the model has no NaN and no
    fractions. *)
Inductive value : Type :=
  | VUndefined
  | VNull
  | VBool (b : bool)
  | VNum (n : Z)
  | VStr (s : string).

#[global] Instance value_eq_dec : EqDecision value.
Proof. solve_decision. Defined.

(** The truthiness test behind [if (x)] and [!x]. *)
Definition truthy (v : value) : bool :=
  match v with
  | VUndefined | VNull => false
  | VBool b => b
  | VNum n => negb (n =? 0)
  | VStr s => negb (String.eqb s EmptyString)
  end.

(** A property read [o[k]]: a missing key reads as undefined. *)
Definition prop (o : gmap string value) (k : string) : value :=
  default VUndefined (o !! k).

(** ** JSON text of a flat object *)

Module JSON.

Definition dquote : ascii := "034"%char.
Definition backslash : ascii := "092"%char.

Definition hex_digit (n : N) : ascii :=
  ascii_of_N (if (n <? 10)%N then 48 + n else 87 + n)%N.

Definition hex_value (c : ascii) : option N :=
  let n := N_of_ascii c in
  if ((48 <=? n) && (n <=? 57))%N then Some (n - 48)%N
  else if ((97 <=? n) && (n <=? 102))%N then Some (n - 87)%N
  else if ((65 <=? n) && (n <=? 70))%N then Some (n - 55)%N
  else None.

(** QuoteJSONString, one character at a time. *)
Definition escape_char (c : ascii) : string :=
  let n := N_of_ascii c in
  if Ascii.eqb c dquote then String backslash (String dquote EmptyString)
  else if Ascii.eqb c backslash then String backslash (String backslash EmptyString)
  else if (n =? 8)%N then String backslash "b"
  else if (n =? 12)%N then String backslash "f"
  else if (n =? 10)%N then String backslash "n"
  else if (n =? 13)%N then String backslash "r"
  else if (n =? 9)%N then String backslash "t"
  else if (n <? 32)%N then
    String backslash
      (String "u" (String "0" (String "0"
         (String (hex_digit (n / 16)) (String (hex_digit (n mod 16)) EmptyString)))))
  else String c EmptyString.

Fixpoint escape (s : string) : string :=
  match s with
  | EmptyString => EmptyString
  | String c s' => escape_char c +:+ escape s'
  end.

Definition quote (s : string) : string :=
  String dquote (escape s +:+ String dquote EmptyString).

Definition print_number (n : Z) : string :=
  match n with
  | Zneg p => String "-" (NilZero.string_of_uint (N.to_uint (Npos p)))
  | _ => NilZero.string_of_uint (N.to_uint (Z.to_N n))
  end.

(** SerializeJSONProperty on a primitive; undefined has no JSON text. *)
Definition print_value (v : value) : option string :=
  match v with
  | VUndefined => None
  | VNull => Some "null"
  | VBool true => Some "true"
  | VBool false => Some "false"
  | VNum n => Some (print_number n)
  | VStr s => Some (quote s)
  end.

(** The members of an object, in enumeration order; a property whose value is
    undefined is left out. *)
Fixpoint print_members (l : list (string * value)) : list string :=
  match l with
  | [] => []
  | (k, v) :: l' =>
      match print_value v with
      | Some t => (quote k +:+ ":" +:+ t) :: print_members l'
      | None => print_members l'
      end
  end.

Fixpoint join (sep : string) (l : list string) : string :=
  match l with
  | [] => EmptyString
  | [t] => t
  | t :: l' => t +:+ sep +:+ join sep l'
  end.

(** JSON.stringify on a flat object.  The members come in the enumeration
    order of the map; the order has no bearing on what the text parses
    to. *)
Definition stringify (o : gmap string value) : string :=
  "{" +:+ join "," (print_members (map_to_list o)) +:+ "}".

(** *** Parsing *)

Definition is_ws (c : ascii) : bool :=
  let n := N_of_ascii c in
  ((n =? 32) || (n =? 9) || (n =? 10) || (n =? 13))%N.

Fixpoint skip_ws (s : string) : string :=
  match s with
  | String c s' => if is_ws c then skip_ws s' else s
  | EmptyString => s
  end.

Definition is_digit (c : ascii) : bool :=
  let n := N_of_ascii c in ((48 <=? n) && (n <=? 57))%N.

(** The UTF-8 bytes of a code unit written as a u-escape. *)
Definition utf8 (n : N) : string :=
  if (n <? 128)%N then String (ascii_of_N n) EmptyString
  else if (n <? 2048)%N then
    String (ascii_of_N (192 + n / 64)) (String (ascii_of_N (128 + n mod 64)) EmptyString)
  else
    String (ascii_of_N (224 + n / 4096))
      (String (ascii_of_N (128 + (n / 64) mod 64))
         (String (ascii_of_N (128 + n mod 64)) EmptyString)).

Definition unescape (c : ascii) : option ascii :=
  if Ascii.eqb c dquote then Some dquote
  else if Ascii.eqb c backslash then Some backslash
  else if Ascii.eqb c "/" then Some "/"%char
  else if Ascii.eqb c "b" then Some (ascii_of_N 8)
  else if Ascii.eqb c "f" then Some (ascii_of_N 12)
  else if Ascii.eqb c "n" then Some (ascii_of_N 10)
  else if Ascii.eqb c "r" then Some (ascii_of_N 13)
  else if Ascii.eqb c "t" then Some (ascii_of_N 9)
  else None.

Definition hex4 (a b c d : ascii) : option N :=
  match hex_value a, hex_value b, hex_value c, hex_value d with
  | Some x, Some y, Some z, Some t => Some (((x * 16 + y) * 16 + z) * 16 + t)%N
  | _, _, _, _ => None
  end.

(** The characters of a string literal after its opening quote, up to and
    including the closing one. *)
Fixpoint parse_chars (s : string) : option (string * string) :=
  match s with
  | EmptyString => None
  | String c rest =>
      if Ascii.eqb c dquote then Some (EmptyString, rest)
      else if Ascii.eqb c backslash then
        match rest with
        | String e rest' =>
            if Ascii.eqb e "u" then
              match rest' with
              | String h1 (String h2 (String h3 (String h4 rest''))) =>
                  match hex4 h1 h2 h3 h4, parse_chars rest'' with
                  | Some n, Some (t, r) => Some (utf8 n +:+ t, r)
                  | _, _ => None
                  end
              | _ => None
              end
            else
              match unescape e, parse_chars rest' with
              | Some c', Some (t, r) => Some (String c' t, r)
              | _, _ => None
              end
        | EmptyString => None
        end
      else if (N_of_ascii c <? 32)%N then None
      else
        match parse_chars rest with
        | Some (t, r) => Some (String c t, r)
        | None => None
        end
  end.

Fixpoint span_digits (s : string) : string * string :=
  match s with
  | String c s' =>
      if is_digit c then let '(d, r) := span_digits s' in (String c d, r)
      else (EmptyString, s)
  | EmptyString => (EmptyString, EmptyString)
  end.

(** An unsigned integer literal: digits, no leading zero, and no fraction or
    exponent after it (those denote numbers outside [value]). *)
Definition parse_nat (s : string) : option (N * string) :=
  let '(d, r) := span_digits s in
  let leading_zero :=
    match d with
    | String c (String _ _) => Ascii.eqb c "0"
    | _ => false
    end in
  let continues :=
    match r with
    | String c _ => Ascii.eqb c "." || Ascii.eqb c "e" || Ascii.eqb c "E"
    | EmptyString => false
    end in
  if leading_zero || continues then None
  else
    match d with
    | EmptyString => None
    | _ => match NilZero.uint_of_string d with
           | Some u => Some (N.of_uint u, r)
           | None => None
           end
    end.

(** The rest of [s] after the literal [lit], when [s] starts with it. *)
Fixpoint expect (lit : string) (s : string) : option string :=
  match lit with
  | EmptyString => Some s
  | String c lit' =>
      match s with
      | String d s' => if Ascii.eqb c d then expect lit' s' else None
      | EmptyString => None
      end
  end.

Definition parse_value (s : string) : option (value * string) :=
  match s with
  | String c rest =>
      if Ascii.eqb c dquote then
        match parse_chars rest with
        | Some (t, r) => Some (VStr t, r)
        | None => None
        end
      else if Ascii.eqb c "-" then
        match parse_nat rest with
        | Some (n, r) => Some (VNum (- Z.of_N n), r)
        | None => None
        end
      else if is_digit c then
        match parse_nat s with
        | Some (n, r) => Some (VNum (Z.of_N n), r)
        | None => None
        end
      else if Ascii.eqb c "n" then
        match expect "ull" rest with Some r => Some (VNull, r) | None => None end
      else if Ascii.eqb c "t" then
        match expect "rue" rest with Some r => Some (VBool true, r) | None => None end
      else if Ascii.eqb c "f" then
        match expect "alse" rest with Some r => Some (VBool false, r) | None => None end
      else None
  | EmptyString => None
  end.

(** One or more members and the closing brace. *)
Fixpoint parse_members (fuel : nat) (s : string)
  : option (list (string * value) * string) :=
  match fuel with
  | O => None
  | S fuel' =>
      match skip_ws s with
      | String c s1 =>
          if Ascii.eqb c dquote then
            match parse_chars s1 with
            | Some (k, s2) =>
                match skip_ws s2 with
                | String c2 s3 =>
                    if Ascii.eqb c2 ":" then
                      match parse_value (skip_ws s3) with
                      | Some (v, s4) =>
                          match skip_ws s4 with
                          | String c5 s5 =>
                              if Ascii.eqb c5 "," then
                                match parse_members fuel' s5 with
                                | Some (l, r) => Some ((k, v) :: l, r)
                                | None => None
                                end
                              else if Ascii.eqb c5 "}" then Some ([(k, v)], s5)
                              else None
                          | EmptyString => None
                          end
                      | None => None
                      end
                    else None
                | EmptyString => None
                end
            | None => None
            end
          else None
      | EmptyString => None
      end
  end.

Definition parse_object (s : string) : option (list (string * value) * string) :=
  match skip_ws s with
  | String c s1 =>
      if Ascii.eqb c "{" then
        match skip_ws s1 with
        | String c2 s2 =>
            if Ascii.eqb c2 "}" then Some ([], s2)
            else parse_members (String.length s1) s1
        | EmptyString => None
        end
      else None
  | EmptyString => None
  end.

(** JSON.parse on the text of a flat object.  Members are defined on the
    result in text order, so a repeated key keeps its last value.  [None] is
    a SyntaxError, or a text whose value is not a flat object of
    primitives. *)
Definition parse (s : string) : option (gmap string value) :=
  match parse_object s with
  | Some (l, r) =>
      match skip_ws r with
      | EmptyString => Some (foldl (fun o kv => <[kv.1 := kv.2]> o) ∅ l)
      | String _ _ => None
      end
  | None => None
  end.

End JSON.

(** ** Errors and results *)

(** An Error object, with its message. *)
Record Error : Type := mkError { message : string }.

(** What a throw statement or a rejected promise carries.  JavaScript lets
    any value be thrown: an Error object, or a primitive value (an object
    that is no Error and has no message is told apart from a primitive by
    nothing these services do, and is not listed separately). *)
Inductive Thrown : Type :=
  | AnError (e : Error)
  | AValue (v : value).

Coercion AnError : Error >-> Thrown.

Inductive Result (A : Type) : Type :=
  | Ok (a : A)
  | Throw (t : Thrown).
Arguments Ok {A} a.
Arguments Throw {A} t.

(** ** Schema metadata (types/Integration and types/information-source) *)

(** A column, with the fields the Mongoose schema of the columns collection
    declares for it. *)
Module Column.
Record t : Type := mk {
  id : string;
  column_name : string;
  data_type : string;
  path : string
}.
End Column.

(** Modelled from the spec: the declarations of the schema tree are not part
    of the sources read here.  A tree is a sequence of databases, each a
    sequence of schemas, each a sequence of tables; a table carries its
    columns and, once they are stored, the id of their document. *)
Module Table.
Record t : Type := mk {
  table_name : string;
  columns : list Column.t;
  columns_id : option string
}.
Definition set_columns_id (v : option string) (x : t) : t :=
  mk (table_name x) (columns x) v.
End Table.

Module Schema.
Record t : Type := mk {
  schema_name : string;
  tables : list Table.t
}.
Definition set_tables (v : list Table.t) (x : t) : t := mk (schema_name x) v.
End Schema.

Module InformationSchema.
Record t : Type := mk {
  database_name : string;
  schemas : list Schema.t
}.
Definition set_schemas (v : list Schema.t) (x : t) : t := mk (database_name x) v.
End InformationSchema.

(** Rows as a backend returns them. *)
Abbreviation RawInformationSchema := (list (gmap string value)).

(** ** Data sources *)

(** A settings entry: a primitive, or a nested object held by reference. *)
Inductive setting : Type :=
  | SValue (v : value)
  | SObject (ref : positive).

Abbreviation DataSourceSettings := (gmap string setting).

Module DataSourceInterface.
Record t : Type := mk {
  id : string;
  organization : string;
  type : string;
  params : string;
  settings : option (gmap string setting)
}.
Definition set_settings (v : option (gmap string setting)) (x : t) : t :=
  mk (id x) (organization x) (type x) (params x) v.
End DataSourceInterface.

(** ** Drivers *)

Record TestQueryResult : Type := mkTestQueryResult {
  tq_results : list (gmap string value);
  tq_duration : Z
}.

(** What a driver class fixes when it is constructed: the parameters it
    decoded and its methods, the optional ones possibly missing.  Every
    method returns a result or throws, whatever value its body throws. *)
Record Driver : Type := mkDriver {
  driver_params : gmap string value;
  driver_getSensitiveParamKeys : list string;
  driver_testConnection : Result unit;
  driver_getTestQuery : option (string → Result string);
  driver_runTestQuery : option (string → Result TestQueryResult);
  driver_getInformationSchema : option (value → Result RawInformationSchema);
  driver_formatInformationSchema :
    option (RawInformationSchema → string → Result (list InformationSchema.t))
}.

(** A driver constructor, [new C(params, settings)]. *)
Abbreviation Constructor := (string → option (gmap string setting) → Result Driver).

(** The driver classes of ../integrations. *)
Record Integrations : Type := mkIntegrations {
  GoogleAnalytics : Constructor;
  Athena : Constructor;
  Presto : Constructor;
  Databricks : Constructor;
  Redshift : Constructor;
  Snowflake : Constructor;
  Postgres : Constructor;
  BigQuery : Constructor;
  ClickHouse : Constructor;
  Mixpanel : Constructor;
  Mysql : Constructor;
  Mssql : Constructor
}.

(** A live integration object.  Its [params] is a reference: the object is
    shared with whoever else holds it and is updated in place. *)
Module SourceIntegrationInterface.
Record t : Type := mk {
  params : positive;
  settings : option (gmap string setting);
  organization : option string;
  datasource : option string;
  driver : Driver
}.
Definition set_organization (v : option string) (x : t) : t :=
  mk (params x) (settings x) v (datasource x) (driver x).
Definition set_datasource (v : option string) (x : t) : t :=
  mk (params x) (settings x) (organization x) v (driver x).
Definition getSensitiveParamKeys (x : t) := driver_getSensitiveParamKeys (driver x).
Definition testConnection (x : t) := driver_testConnection (driver x).
Definition getTestQuery (x : t) := driver_getTestQuery (driver x).
Definition runTestQuery (x : t) := driver_runTestQuery (driver x).
Definition getInformationSchema (x : t) := driver_getInformationSchema (driver x).
Definition formatInformationSchema (x : t) := driver_formatInformationSchema (driver x).
End SourceIntegrationInterface.

(** The calls a service makes into a driver, in the order it makes them. *)
Inductive DriverCall : Type :=
  | CallTestConnection
  | CallGetTestQuery (query : string)
  | CallRunTestQuery (sql : string)
  | CallGetInformationSchema (projectId : value)
  | CallFormatInformationSchema (type : string).

(** ** The document store *)

(** A field of a document: a string, a number, a date, an ObjectId, the
    plain array of columns handed to the model, or the array of documents
    the model makes of it, each element a column under an _id of its
    own. *)
Inductive Field : Type :=
  | FString (s : string)
  | FNumber (n : Z)
  | FDate (t : N)
  | FObjectId (o : N)
  | FColumns (cs : list Column.t)
  | FDocumentArray (ds : list (N * Column.t)).

(** Modelled from the spec: models/InformationSchemaModel.ts is not part of
    the sources read here.  An InformationSchema document is the tree, owned
    by an organization, under a system-generated id. *)
Record InformationSchemaInterface : Type := mkInformationSchemaInterface {
  is_id : string;
  is_organization : string;
  is_databases : list InformationSchema.t
}.

Inductive StoreOp : Type :=
  | OpCreateInformationSchemaColumns
  | OpCreateInformationSchema
  | OpUpdateDataSource.

(** The three collections, and the journal of the writes made to them. *)
Record DocumentStore : Type := mkDocumentStore {
  informationSchemaColumns : list (gmap string Field);
  informationSchemas : list InformationSchemaInterface;
  dataSources : list DataSourceInterface.t;
  journal : list StoreOp
}.

(** ** The world a service call runs in *)

(** The heap of parameter objects (the own properties of each), the objects
    among them whose prototype has been replaced by null (the others have
    Object.prototype), the document store, the number of clock readings
    taken, the last stamp uniqid gave (0 before the first), the next
    ObjectId of the store, and the calls made into drivers. *)
Record World : Type := mkWorld {
  heap : gmap positive (gmap string value);
  nullPrototype : gset positive;
  store : DocumentStore;
  clockReads : nat;
  uniqLast : N;
  objectIds : N;
  driverCalls : list DriverCall
}.

Definition set_heap (h : gmap positive (gmap string value)) (w : World) : World :=
  mkWorld h (nullPrototype w) (store w) (clockReads w) (uniqLast w) (objectIds w)
    (driverCalls w).
Definition set_nullPrototype (s : gset positive) (w : World) : World :=
  mkWorld (heap w) s (store w) (clockReads w) (uniqLast w) (objectIds w)
    (driverCalls w).
Definition set_store (s : DocumentStore) (w : World) : World :=
  mkWorld (heap w) (nullPrototype w) s (clockReads w) (uniqLast w) (objectIds w)
    (driverCalls w).
Definition set_clockReads (n : nat) (w : World) : World :=
  mkWorld (heap w) (nullPrototype w) (store w) n (uniqLast w) (objectIds w)
    (driverCalls w).
Definition set_uniqLast (n : N) (w : World) : World :=
  mkWorld (heap w) (nullPrototype w) (store w) (clockReads w) n (objectIds w)
    (driverCalls w).
Definition set_objectIds (n : N) (w : World) : World :=
  mkWorld (heap w) (nullPrototype w) (store w) (clockReads w) (uniqLast w) n
    (driverCalls w).
Definition set_driverCalls (l : list DriverCall) (w : World) : World :=
  mkWorld (heap w) (nullPrototype w) (store w) (clockReads w) (uniqLast w)
    (objectIds w) l.

(** Computations that read and write the world and may throw. *)
Definition M (A : Type) : Type := World → Result A * World.

#[global] Instance M_ret : MRet M := λ A a w, (Ok a, w).
#[global] Instance M_bind : MBind M := λ A B f m w,
  match m w with
  | (Ok a, w') => f a w'
  | (Throw t, w') => (Throw t, w')
  end.

Definition throw {A : Type} (t : Thrown) : M A := λ w, (Throw t, w).

Definition try_catch {A : Type} (body : M A) (handler : Thrown → M A) : M A :=
  λ w, match body w with
       | (Ok a, w') => (Ok a, w')
       | (Throw t, w') => handler t w'
       end.

(** The TypeError of a property read on null or undefined, worded as V8
    words it. *)
Definition TypeError_reading (property : string) (v : value) : Error :=
  mkError ("Cannot read properties of "
             +:+ (if decide (v = VNull) then "null" else "undefined")
             +:+ " (reading '" +:+ property +:+ "')").

(** [e.message] on what a catch clause caught: the message of an Error;
    undefined on a primitive; and on null or undefined the read itself
    throws. *)
Definition get_message (e : Thrown) : M (option string) :=
  match e with
  | AnError err => mret (Some (message err))
  | AValue VUndefined => throw (TypeError_reading "message" VUndefined)
  | AValue VNull => throw (TypeError_reading "message" VNull)
  | AValue _ => mret None
  end.

(** [for (const x of xs) body]: the body runs on each element in order and
    may update it in place; the result is the sequence as updated. *)
Fixpoint for_of {A : Type} (xs : list A) (body : A → M A) : M (list A) :=
  match xs with
  | [] => mret []
  | x :: xs' => x' ← body x; xs'' ← for_of xs' body; mret (x' :: xs'')
  end.

(** [xs.forEach(body)]. *)
Fixpoint forEach {A : Type} (xs : list A) (body : A → M unit) : M unit :=
  match xs with
  | [] => mret tt
  | x :: xs' => body x;; forEach xs' body
  end.

(** *** Objects in the heap *)

Definition own_properties (l : positive) (w : World) : gmap string value :=
  default ∅ (heap w !! l).

(** A new object with the given own properties; its prototype is
    Object.prototype. *)
Definition new_object (o : gmap string value) : M positive := λ w,
  let r := fresh (dom (heap w)) in
  (Ok r,
   set_nullPrototype (nullPrototype w ∖ {[r]}) (set_heap (<[r := o]> (heap w)) w)).

(** [{ ...o }]: a new object with the own properties of [o], each defined on
    it as a property of its own, whatever its name. *)
Definition spread (l : positive) : M positive := λ w,
  new_object (own_properties l w) w.

(** [o[k]], for the reads these services make: of a key the object owns, or
    of a name Object.prototype does not define (projectId, the keys
    Object.keys lists, the sensitive keys a driver class declares).  A
    missing key reads as undefined. *)
Definition get_prop (l : positive) (k : string) : M value := λ w,
  (Ok (prop (own_properties l w) k), w).

(** Whether an assignment to the key reaches the setter of
    Object.prototype.__proto__: the key is __proto__, the object does not
    own it, and the object still has Object.prototype above it. *)
Definition reaches_setter (o : gmap string value) (nullProto : bool) (k : string)
  : bool :=
  String.eqb k "__proto__" && bool_decide (o !! k = None) && negb nullProto.

(** [o[k] = v].  An own property is created or updated, except when the
    assignment reaches the __proto__ setter: that creates no property; it
    replaces the prototype of the object when the value is null and ignores
    any other primitive. *)
Definition set_prop (l : positive) (k : string) (v : value) : M unit := λ w,
  if reaches_setter (own_properties l w) (bool_decide (l ∈ nullPrototype w)) k then
    match v with
    | VNull => (Ok tt, set_nullPrototype ({[l]} ∪ nullPrototype w) w)
    | _ => (Ok tt, w)
    end
  else (Ok tt, set_heap (alter (λ o, <[k := v]> o) l (heap w)) w).

(** [Object.keys(o)] *)
Definition Object_keys (l : positive) : M (list string) := λ w,
  (Ok ((map_to_list (own_properties l w)).*1), w).

(** [keys.includes(k)] *)
Definition includes (keys : list string) (k : string) : bool :=
  existsb (String.eqb k) keys.

(** A call into the driver: it is recorded, and answers or throws. *)
Definition invoke {A : Type} (c : DriverCall) (r : Result A) : M A := λ w,
  (r, set_driverCalls (driverCalls w ++ [c]) w).

(** *** Base 36, as [Number.prototype.toString(36)] writes an integer *)

Definition digit36 (d : N) : ascii :=
  ascii_of_N (if (d <? 10)%N then 48 + d else 87 + d)%N.

(** Least significant digit first. *)
Fixpoint digits36 (fuel : nat) (n : N) : list N :=
  match fuel with
  | O => []
  | S fuel' =>
      (n mod 36)%N :: (if (n <? 36)%N then [] else digits36 fuel' (n / 36)%N)
  end.

Definition toString36 (n : N) : string :=
  string_of_list_ascii (rev (map digit36 (digits36 (S (N.to_nat (N.log2 n))) n))).

(** lodash [omit(o, keys)] *)
Definition omit {V : Type} (o : gmap string V) (keys : list string) : gmap string V :=
  foldr delete o keys.

(** [column.id] of a columns document, when it is a string. *)
Definition doc_id (d : gmap string Field) : option string :=
  match d !! "id" with
  | Some (FString s) => Some s
  | _ => None
  end.

Definition add_columns_document (d : gmap string Field) (s : DocumentStore)
  : DocumentStore :=
  mkDocumentStore (informationSchemaColumns s ++ [d]) (informationSchemas s)
    (dataSources s) (journal s ++ [OpCreateInformationSchemaColumns]).

(** Results of the services *)

Record GeneratedInformationSchema : Type := mkGenerated {
  informationSchema : option (list InformationSchema.t);
  error : option string
}.

Record TestQueryOutcome : Type := mkTestQueryOutcome {
  tqo_results : option (list (gmap string value));
  tqo_duration : option Z;
  tqo_error : option string;
  tqo_sql : option string
}.

(** The fields of a data source an update may carry. *)
Record DataSourceUpdate : Type := mkDataSourceUpdate {
  upd_settings : option (gmap string setting)
}.

(** ** Sample drivers, data sources and worlds, used to exercise the model *)

Module Samples.

Definition users_columns : list Column.t :=
  [ Column.mk "c1" "id" "integer" "shop.public.users.id";
    Column.mk "c2" "email" "text" "shop.public.users.email";
    Column.mk "c3" "created_at" "timestamp" "shop.public.users.created_at" ].

Definition users_tree : list InformationSchema.t :=
  [ InformationSchema.mk "shop"
      [ Schema.mk "public" [ Table.mk "users" users_columns None ] ] ].

Definition raw_rows : list (gmap string value) :=
  [ <["table_name" := VStr "users"]> (<["column_count" := VNum 3]> ∅) ].

Definition decode (params : string) : Result (gmap string value) :=
  match JSON.parse params with
  | Some o => Ok o
  | None => Throw (mkError "Malformed parameters")
  end.

Definition with_params (d : gmap string value → Driver) : Constructor :=
  λ params _, match decode params with
              | Ok o => Ok (d o)
              | Throw e => Throw e
              end.

(** A SQL backend with every capability. *)
Definition sql_driver (o : gmap string value) : Driver :=
  mkDriver o ["password"] (Ok tt)
    (Some (λ q, Ok ("SELECT * FROM (" +:+ q +:+ ") LIMIT 5")))
    (Some (λ _, Ok (mkTestQueryResult raw_rows 12)))
    (Some (λ _, Ok raw_rows))
    (Some (λ _ _, Ok users_tree)).

(** An event-analytics backend: no test queries, no introspection. *)
Definition events_driver (o : gmap string value) : Driver :=
  mkDriver o ["secret"] (Ok tt) None None None None.

(** A backend that refuses every request. *)
Definition denied_driver (o : gmap string value) : Driver :=
  mkDriver o ["secretAccessKey"] (Throw (mkError "Access denied"))
    (Some (λ q, Ok (q +:+ " LIMIT 5")))
    (Some (λ _, Throw (mkError "Access denied")))
    (Some (λ _, Throw (mkError "Access denied")))
    (Some (λ _ _, Ok [])).

(** A backend whose client library throws what is no Error: it rejects
    schema requests with null and queries with a string, and its
    getTestQuery refuses an empty query. *)
Definition unruly_driver (o : gmap string value) : Driver :=
  mkDriver o [] (Throw (AValue (VStr "timeout")))
    (Some (λ q, if String.eqb q EmptyString then Throw (mkError "Empty query")
                else Ok q))
    (Some (λ _, Throw (AValue (VStr "timeout"))))
    (Some (λ _, Throw (AValue VNull)))
    (Some (λ _ _, Ok [])).

Definition integrations : Integrations :=
  mkIntegrations
    (with_params events_driver) (with_params denied_driver)
    (with_params sql_driver) (with_params sql_driver)
    (with_params sql_driver) (with_params sql_driver)
    (with_params sql_driver) (with_params sql_driver)
    (with_params unruly_driver) (with_params events_driver)
    (with_params sql_driver) (with_params sql_driver).

Definition Date_now (i : nat) : N := (1673000000000 + 3 * N.of_nat i)%N.

(** A clock that reads the same at every reading, as one set back does. *)
Definition stalled_clock (i : nat) : N := 1673000000000%N.
Definition machine : string := "4n5pxq24k".

Definition pg_params : gmap string value :=
  <["user" := VStr "a"]> (<["password" := VStr "secret"]>
    (<["port" := VNum 5432]> (<["ssl" := VBool false]> ∅))).

Definition pg_settings : gmap string setting :=
  <["queries" := SObject 7]> (<["notebookRunQuery" := SValue (VStr "run()")]> ∅).

Definition pg_source : DataSourceInterface.t :=
  DataSourceInterface.mk "ds_1" "org_1" "postgres" (JSON.stringify pg_params)
    (Some pg_settings).

Definition mixpanel_params : gmap string value :=
  <["projectId" := VStr "p1"]> (<["secret" := VStr "s"]> ∅).

Definition athena_params : gmap string value :=
  <["secretAccessKey" := VStr "k"]> ∅.

Definition mixpanel_source : DataSourceInterface.t :=
  DataSourceInterface.mk "ds_2" "org_1" "mixpanel"
    (JSON.stringify mixpanel_params) None.

Definition athena_source : DataSourceInterface.t :=
  DataSourceInterface.mk "ds_3" "org_1" "athena"
    (JSON.stringify athena_params) (Some ∅).

Definition clickhouse_source : DataSourceInterface.t :=
  DataSourceInterface.mk "ds_5" "org_1" "clickhouse" (JSON.stringify ∅) None.

(** A record whose type the factory does not know. *)
Definition oracle_source : DataSourceInterface.t :=
  DataSourceInterface.mk "ds_4" "org_1" "oracle" (JSON.stringify pg_params) None.

Definition store0 : DocumentStore :=
  mkDocumentStore [] [] [pg_source; mixpanel_source; athena_source] [].

Definition world0 : World := mkWorld ∅ ∅ store0 0 0 0 [].

(** The integration objects the factory builds for the three sources in
    [world0], and the world it leaves: the decoded parameters are the first
    object of the heap. *)
Definition pg_integration : SourceIntegrationInterface.t :=
  SourceIntegrationInterface.mk 1 (Some pg_settings) (Some "org_1") (Some "ds_1")
    (sql_driver pg_params).

Definition pg_world : World :=
  mkWorld (<[1%positive := pg_params]> ∅) ∅ store0 0 0 0 [].

Definition mixpanel_integration : SourceIntegrationInterface.t :=
  SourceIntegrationInterface.mk 1 (Some ∅) (Some "org_1") (Some "ds_2")
    (events_driver mixpanel_params).

Definition mixpanel_world : World :=
  mkWorld (<[1%positive := mixpanel_params]> ∅) ∅ store0 0 0 0 [].

Definition athena_integration : SourceIntegrationInterface.t :=
  SourceIntegrationInterface.mk 1 (Some ∅) (Some "org_1") (Some "ds_3")
    (denied_driver athena_params).

Definition athena_world : World :=
  mkWorld (<[1%positive := athena_params]> ∅) ∅ store0 0 0 0 [].

Definition clickhouse_integration : SourceIntegrationInterface.t :=
  SourceIntegrationInterface.mk 1 None (Some "org_1") (Some "ds_5")
    (unruly_driver ∅).

Definition clickhouse_world : World :=
  mkWorld (<[1%positive := ∅]> ∅) ∅ store0 0 0 0 [].

(** A login with a sensitive pass, and updates of it held at the
    references 2 to 5; the last two own a key named __proto__, as an
    object parsed from JSON text can. *)
Definition login_params : gmap string value :=
  <["user" := VStr "a"]> (<["pass" := VStr "secret"]> ∅).

Definition login_integration : SourceIntegrationInterface.t :=
  SourceIntegrationInterface.mk 1 None None None
    (mkDriver login_params ["pass"] (Ok tt) None None None None).

Definition login_world : World :=
  mkWorld
    (<[1%positive := login_params]>
       (<[2%positive := <["pass" := VStr EmptyString]> ∅]>
          (<[3%positive := <["pass" := VStr "new"]> ∅]>
             (<[4%positive := <["__proto__" := VStr "x"]> ∅]>
                (<[5%positive := <["__proto__" := VNull]> ∅]> ∅)))))
    ∅ store0 0 0 0 [].

(** The process after a restart: uniqid has forgotten its last stamp; the
    store is as it was. *)
Definition restarted (w : World) : World := set_uniqLast 0 w.

(** A toy cipher: the ciphertext is the passphrase followed by the message. *)
Definition toy_encrypt (salt message passphrase : string) : string :=
  passphrase +:+ message.

Definition toy_decrypt (ciphertext passphrase : string) : option string :=
  JSON.expect passphrase ciphertext.

End Samples.

Section Services.

#[local] Set Default Proof Using "Type".

(** The key of ../util/secrets, and the passphrase cipher of crypto-js:
    encryption draws a random salt, decryption yields the plaintext decoded
    as UTF-8, or nothing when the bytes it recovers are not text. *)
Variable ENCRYPTION_KEY : string.
Variable AES_encrypt : string → string → string → string.
Variable AES_decrypt : string → string → option string.

(** The driver classes, the readings of the wall clock in the order they are
    taken, and the host-and-process tag uniqid puts in every id. *)
Variable integrations : Integrations.
Variable Date_now : nat → N.
Variable machine : string.

(** *** services/datasource.ts *)

Definition decryptDataSourceParams (encrypted : string) : option (gmap string value) :=
  AES_decrypt encrypted ENCRYPTION_KEY ≫= JSON.parse.

Definition encryptParams (salt : string) (params : gmap string value) : string :=
  AES_encrypt salt (JSON.stringify params) ENCRYPTION_KEY.

Definition getNonSensitiveParams (integration : SourceIntegrationInterface.t)
  : M positive :=
  ret ← spread (SourceIntegrationInterface.params integration);
  forEach (SourceIntegrationInterface.getSensitiveParamKeys integration)
    (λ k, v ← get_prop ret k;
          if truthy v then set_prop ret k (VStr EmptyString) else mret tt);;
  mret ret.

Definition mergeParams (integration : SourceIntegrationInterface.t)
    (newParams : positive) : M unit :=
  let secretKeys := SourceIntegrationInterface.getSensitiveParamKeys integration in
  keys ← Object_keys newParams;
  forEach keys
    (λ k, v ← get_prop newParams k;
          (* If a secret value is left empty, keep the original value *)
          if includes secretKeys k && negb (truthy v) then mret tt
          else v' ← get_prop newParams k;
               set_prop (SourceIntegrationInterface.params integration) k v').

(** [new C(params, settings)]: the constructor runs, and the parameters it
    decoded become a fresh object of the heap. *)
Definition new (C : Constructor) (params : string)
    (settings : option (gmap string setting))
  : M (option SourceIntegrationInterface.t) :=
  d ← ((λ w, (C params settings, w)) : M Driver);
  p ← new_object (driver_params d);
  mret (Some (SourceIntegrationInterface.mk p settings None None d)).

Definition getIntegrationObj (type : string) (params : string)
    (settings : option (gmap string setting))
  : M (option SourceIntegrationInterface.t) :=
  if String.eqb type "athena" then new (Athena integrations) params settings
  else if String.eqb type "redshift" then new (Redshift integrations) params settings
  else if String.eqb type "google_analytics" then
    new (GoogleAnalytics integrations) params settings
  else if String.eqb type "snowflake" then new (Snowflake integrations) params settings
  else if String.eqb type "postgres" then new (Postgres integrations) params settings
  else if String.eqb type "mysql" then new (Mysql integrations) params settings
  else if String.eqb type "mssql" then new (Mssql integrations) params settings
  else if String.eqb type "bigquery" then new (BigQuery integrations) params settings
  else if String.eqb type "clickhouse" then new (ClickHouse integrations) params settings
  else if String.eqb type "mixpanel" then
    new (Mixpanel integrations) params (Some (default ∅ settings))
  else if String.eqb type "presto" then new (Presto integrations) params settings
  else if String.eqb type "databricks" then new (Databricks integrations) params settings
  else mret None.

Definition getSourceIntegrationObject (datasource : DataSourceInterface.t)
  : M SourceIntegrationInterface.t :=
  let type := DataSourceInterface.type datasource in
  let params := DataSourceInterface.params datasource in
  let settings := DataSourceInterface.settings datasource in
  obj ← getIntegrationObj type params settings;
  match obj with
  | None =>
      (* Sanity check, this should never happen *)
      throw (mkError ("Unknown data source type: " +:+ type))
  | Some obj =>
      mret (SourceIntegrationInterface.set_datasource
              (Some (DataSourceInterface.id datasource))
              (SourceIntegrationInterface.set_organization
                 (Some (DataSourceInterface.organization datasource)) obj))
  end.

Definition generateInformationSchema (datasource : DataSourceInterface.t)
  : M GeneratedInformationSchema :=
  integration ← getSourceIntegrationObject datasource;
  match SourceIntegrationInterface.getInformationSchema integration,
        SourceIntegrationInterface.formatInformationSchema integration with
  | Some getInformationSchema, Some formatInformationSchema =>
      try_catch
        (projectId ← get_prop (SourceIntegrationInterface.params integration) "projectId";
         rawInformationSchema ←
           invoke (CallGetInformationSchema projectId) (getInformationSchema projectId);
         informationSchema ←
           invoke (CallFormatInformationSchema (DataSourceInterface.type datasource))
             (formatInformationSchema rawInformationSchema
                (DataSourceInterface.type datasource));
         mret (mkGenerated (Some informationSchema) None))
        (λ e, message ← get_message e; mret (mkGenerated None message))
  | _, _ =>
      (* Not all datasources support this yet *)
      mret (mkGenerated (Some []) None)
  end.

Definition testDataSourceConnection (datasource : DataSourceInterface.t) : M unit :=
  integration ← getSourceIntegrationObject datasource;
  invoke CallTestConnection (SourceIntegrationInterface.testConnection integration).

Definition testQuery (datasource : DataSourceInterface.t) (query : string)
  : M TestQueryOutcome :=
  integration ← getSourceIntegrationObject datasource;
  match SourceIntegrationInterface.getTestQuery integration,
        SourceIntegrationInterface.runTestQuery integration with
  | Some getTestQuery, Some runTestQuery =>
      sql ← invoke (CallGetTestQuery query) (getTestQuery query);
      try_catch
        (r ← invoke (CallRunTestQuery sql) (runTestQuery sql);
         mret (mkTestQueryOutcome (Some (tq_results r)) (Some (tq_duration r))
                 None (Some sql)))
        (λ e, message ← get_message e;
              mret (mkTestQueryOutcome None None message (Some sql)))
  | _, _ =>
      (* The Mixpanel integration does not support test queries *)
      throw (mkError "Unable to test query.")
  end.

(** *** The clock and uniqid *)

(** [new Date()], [Date.now()]: the next reading of the clock. *)
Definition Date_new : M N := λ w,
  (Ok (Date_now (clockReads w)), set_clockReads (S (clockReads w)) w).

(** uniqid is the package the model imports; it is not among the sources
    read here, and what follows is its index.js.  The stamp is the clock,
    pushed past the last stamp given in this process:
    [last = now.last || time; now.last = time > last ? time : last + 1]. *)
Definition next_stamp (time : N) (now_last : N) : N :=
  let last := if (now_last =? 0)%N then time else now_last in
  if (last <? time)%N then time else (last + 1)%N.

(** [now()]: it reads the clock and remembers the stamp it gives. *)
Definition uniqid_now : M N :=
  time ← Date_new;
  ((λ w, let stamp := next_stamp time (uniqLast w) in
         (Ok stamp, set_uniqLast stamp w)) : M N).

(** [uniqid(prefix)]: the prefix, the tag of the host and the process, and
    the stamp in base 36. *)
Definition uniqid (prefix : string) : M string :=
  stamp ← uniqid_now;
  mret (prefix +:+ machine +:+ toString36 stamp).

(** *** models/InformationSchemaColumnsModel.ts *)

(** What the schema makes of the array given for columns: it declares the
    field as an array of documents, so Mongoose turns each element into a
    document of its own, under an _id of its own. *)
Definition cast_columns (first : N) (columns : list Column.t) : list (N * Column.t) :=
  imap (λ i c, ((first + N.of_nat i)%N, c)) columns.

(** [InformationSchemaColumnsModel.create(obj)]: the document gets its _id,
    its columns (none when no array is given) become an array of documents,
    and it is stored with the version key Mongo adds, and returned. *)
Definition InformationSchemaColumnsModel_create (obj : gmap string Field)
  : M (gmap string Field) := λ w,
  let columns := match obj !! "columns" with
                 | Some (FColumns cs) => cs
                 | _ => []
                 end in
  let doc :=
    <["_id" := FObjectId (objectIds w)]>
      (<["__v" := FNumber 0]>
         (<["columns" := FDocumentArray (cast_columns (objectIds w + 1) columns)]>
            obj)) in
  (Ok doc,
   set_objectIds (objectIds w + 1 + N.of_nat (length columns))%N
     (set_store (add_columns_document doc (store w)) w)).

(** [doc.toJSON()]: the plain object with the fields of the document, the
    elements of an array of documents with their _id. *)
Definition toJSON (doc : gmap string Field) : gmap string Field := doc.

(** Convert the Mongo document to an interface, omitting the Mongo default
    fields __v and _id: omit drops these two keys of the object itself. *)
Definition toInterface (doc : gmap string Field) : gmap string Field :=
  omit (toJSON doc) ["__v"; "_id"].

(** The object literal handed to the model. *)
Definition columns_record (id organization : string) (columns : list Column.t)
    (dateCreated dateUpdated : N) : gmap string Field :=
  <["id" := FString id]>
    (<["organization" := FString organization]>
       (<["columns" := FColumns columns]>
          (<["dateCreated" := FDate dateCreated]>
             (<["dateUpdated" := FDate dateUpdated]> ∅)))).

Definition createInformationSchemaColumns (columns : list Column.t)
    (organization : string) : M (gmap string Field) :=
  id ← uniqid "cols_";
  dateCreated ← Date_new;
  dateUpdated ← Date_new;
  result ← InformationSchemaColumnsModel_create
    (columns_record id organization columns dateCreated dateUpdated);
  mret (toInterface result).

(** *** The other two store primitives *)

(** Modelled from the spec: models/InformationSchemaModel.ts is not part of
    the sources read here.  createInformationSchema(tree, organization)
    creates one document from the tree and returns its id. *)
Definition createInformationSchema (tree : list InformationSchema.t)
    (organization : string) : M string :=
  id ← uniqid "inf_";
  ((λ w, (Ok id,
          set_store
            (mkDocumentStore (informationSchemaColumns (store w))
               (informationSchemas (store w)
                  ++ [mkInformationSchemaInterface id organization tree])
               (dataSources (store w))
               (journal (store w) ++ [OpCreateInformationSchema])) w)) : M string).

Definition apply_update (id organization : string) (updates : DataSourceUpdate)
    (d : DataSourceInterface.t) : DataSourceInterface.t :=
  if String.eqb (DataSourceInterface.id d) id
     && String.eqb (DataSourceInterface.organization d) organization
  then match upd_settings updates with
       | Some s =>
           DataSourceInterface.set_settings
             (Some (s ∪ default ∅ (DataSourceInterface.settings d))) d
       | None => d
       end
  else d.

(** Modelled from the spec: models/DataSourceModel.ts is not part of the
    sources read here.  updateDataSource(id, organization, partialUpdate)
    merges the update into the settings of the record with that id and
    organization. *)
Definition updateDataSource (id organization : string) (updates : DataSourceUpdate)
  : M unit := λ w,
  (Ok tt,
   set_store
     (mkDocumentStore (informationSchemaColumns (store w))
        (informationSchemas (store w))
        (apply_update id organization updates <$> dataSources (store w))
        (journal (store w) ++ [OpUpdateDataSource])) w).

(** *** services/datasource.ts, continued *)

Definition createInitialInformationSchema (datasource : DataSourceInterface.t)
    (organization : string) : M unit :=
  generated ← generateInformationSchema datasource;
  (* Loop through each database, schema, and table, and create a record for
     each table's columns. *)
  match informationSchema generated with
  | Some informationSchema =>
      informationSchema ←
        for_of informationSchema (λ database,
          schemas ←
            for_of (InformationSchema.schemas database) (λ schema,
              tables ←
                for_of (Schema.tables schema) (λ table,
                  column ← createInformationSchemaColumns
                             (Table.columns table) organization;
                  mret (Table.set_columns_id (doc_id column) table));
              mret (Schema.set_tables tables schema));
          mret (InformationSchema.set_schemas schemas database));
      (* Then save the updated tree to the InformationSchema collection and
         get the id. *)
      informationSchemaId ← createInformationSchema informationSchema organization;
      (* Then update datasource.settings.informationSchemaId to the id of
         the newly created document. *)
      if truthy (VStr informationSchemaId) then
        updateDataSource (DataSourceInterface.id datasource) organization
          (mkDataSourceUpdate
             (Some (<["informationSchemaId" := SValue (VStr informationSchemaId)]>
                      (default ∅ (DataSourceInterface.settings datasource)))))
      else mret tt
  | None => mret tt
  end.

(** ** Notions used to state and prove the properties *)

(** What a computation leaves alone: everything but the heap and the
    prototypes of its objects. *)
Definition same_outside_heap (w w' : World) : Prop :=
  store w' = store w ∧ clockReads w' = clockReads w ∧ uniqLast w' = uniqLast w
  ∧ objectIds w' = objectIds w ∧ driverCalls w' = driverCalls w.

(** The project id the service hands to getInformationSchema. *)
Definition projectId_of (integration : SourceIntegrationInterface.t) (w : World)
  : value :=
  prop (own_properties (SourceIntegrationInterface.params integration) w) "projectId".

Fixpoint eval36 (ds : list N) : N :=
  match ds with
  | [] => 0%N
  | d :: ds' => (d + 36 * eval36 ds')%N
  end.

(** The document the model stores for a call made in world [w]. *)
Definition stored_columns_document (columns : list Column.t) (organization : string)
    (w : World) : gmap string Field :=
  <["_id" := FObjectId (objectIds w)]>
    (<["__v" := FNumber 0]>
       (<["columns" := FDocumentArray (cast_columns (objectIds w + 1) columns)]>
          (columns_record
             ("cols_" +:+ machine
                +:+ toString36 (next_stamp (Date_now (clockReads w)) (uniqLast w)))
             organization columns
             (Date_now (S (clockReads w))) (Date_now (S (S (clockReads w))))))).

(** What the two driver calls of schema discovery give: nothing when a
    capability is missing; otherwise the tree, or what the first call that
    threw has thrown. *)
Definition discovered (integration : SourceIntegrationInterface.t) (type : string)
    (projectId : value) : option (Result (list InformationSchema.t)) :=
  match SourceIntegrationInterface.getInformationSchema integration,
        SourceIntegrationInterface.formatInformationSchema integration with
  | Some getInformationSchema, Some formatInformationSchema =>
      Some (match getInformationSchema projectId with
            | Ok raw => formatInformationSchema raw type
            | Throw t => Throw t
            end)
  | _, _ => None
  end.

(** The update the synchronization sends for a data source. *)
Definition backlink (datasource : DataSourceInterface.t) (informationSchemaId : string)
  : DataSourceUpdate :=
  mkDataSourceUpdate
    (Some (<["informationSchemaId" := SValue (VStr informationSchemaId)]>
             (default ∅ (DataSourceInterface.settings datasource)))).

(** Blanking the truthy values under the given keys, one key after the
    other. *)
Definition redact (keys : list string) (o : gmap string value) : gmap string value :=
  foldl (λ o k, if truthy (prop o k) then <[k := VStr EmptyString]> o else o) o keys.

(** A key of the update that a merge skips: a secret left empty. *)
Definition skipped (secretKeys : list string) (update : gmap string value)
    (k : string) : bool :=
  includes secretKeys k && negb (truthy (prop update k)).

(** The params during a merge: their own properties, and whether their
    prototype is null.  One key of the update is skipped, or reaches the
    __proto__ setter, or is stored. *)
Definition merge_key (secretKeys : list string) (update : gmap string value)
    (s : gmap string value * bool) (k : string) : gmap string value * bool :=
  if skipped secretKeys update k then s
  else if reaches_setter s.1 s.2 k then
    (s.1, s.2 || bool_decide (prop update k = VNull))
  else (<[k := prop update k]> s.1, s.2).

(** The params after a merge, one key of the update after the other. *)
Definition merged (secretKeys keys : list string) (update : gmap string value)
    (s : gmap string value * bool) : gmap string value * bool :=
  foldl (merge_key secretKeys update) s keys.

(** The params after mergeParams has applied the update held in the heap. *)
Definition after_merge (integration : SourceIntegrationInterface.t)
    (update stored : gmap string value) (w : World) : gmap string value * bool :=
  merged (SourceIntegrationInterface.getSensitiveParamKeys integration)
    (map_to_list update).*1 update
    (stored,
     bool_decide (SourceIntegrationInterface.params integration ∈ nullPrototype w)).

(** Whether the key of the update is applied by a merge and stored as a
    property: it is a key of the update, is not skipped as an empty secret,
    and does not reach the __proto__ setter. *)
Definition stores (secretKeys keys : list string) (update : gmap string value)
    (s : gmap string value * bool) (k : string) : bool :=
  bool_decide (k ∈ keys)
  && negb (skipped secretKeys update k)
  && negb (reaches_setter s.1 s.2 k).

(** Whether a merge replaces the prototype of the params by null: the
    update owns __proto__ with the value null, the key is not skipped, and
    the assignment reaches the setter. *)
Definition drops_prototype (secretKeys keys : list string) (update : gmap string value)
    (s : gmap string value * bool) : bool :=
  bool_decide ("__proto__" ∈ keys)
  && negb (skipped secretKeys update "__proto__")
  && reaches_setter s.1 s.2 "__proto__"
  && bool_decide (prop update "__proto__" = VNull).

(** One character of a string literal, plain or escaped: the bytes it
    denotes and the text after it. *)
Definition lex_char (s : string) : option (string * string) :=
  match s with
  | EmptyString => None
  | String c rest =>
      if Ascii.eqb c JSON.backslash then
        match rest with
        | String e rest' =>
            if Ascii.eqb e "u" then
              match rest' with
              | String h1 (String h2 (String h3 (String h4 rest''))) =>
                  match JSON.hex4 h1 h2 h3 h4 with
                  | Some n => Some (JSON.utf8 n, rest'')
                  | None => None
                  end
              | _ => None
              end
            else
              match JSON.unescape e with
              | Some c' => Some (String c' EmptyString, rest')
              | None => None
              end
        | EmptyString => None
        end
      else if (N_of_ascii c <? 32)%N then None
      else Some (String c EmptyString, rest)
  end.

(** Text that ends a member: a comma or the closing brace. *)
Definition delimited (rest : string) : Prop :=
  ∃ r, rest = String "," r ∨ rest = String "}" r.

Definition defined (kv : string * value) : Prop := kv.2 ≠ VUndefined.

(** The types the factory knows, as the switch of getIntegrationObj lists
    them. *)
Definition known_types : list string :=
  [ "athena"; "redshift"; "google_analytics"; "snowflake"; "postgres"; "mysql";
    "mssql"; "bigquery"; "clickhouse"; "mixpanel"; "presto"; "databricks" ].

(** The class the switch picks for a type. *)
Definition constructor_for (type : string) : option Constructor :=
  if String.eqb type "athena" then Some (Athena integrations)
  else if String.eqb type "redshift" then Some (Redshift integrations)
  else if String.eqb type "google_analytics" then Some (GoogleAnalytics integrations)
  else if String.eqb type "snowflake" then Some (Snowflake integrations)
  else if String.eqb type "postgres" then Some (Postgres integrations)
  else if String.eqb type "mysql" then Some (Mysql integrations)
  else if String.eqb type "mssql" then Some (Mssql integrations)
  else if String.eqb type "bigquery" then Some (BigQuery integrations)
  else if String.eqb type "clickhouse" then Some (ClickHouse integrations)
  else if String.eqb type "mixpanel" then Some (Mixpanel integrations)
  else if String.eqb type "presto" then Some (Presto integrations)
  else if String.eqb type "databricks" then Some (Databricks integrations)
  else None.

(** The settings the switch hands to the constructor: the Mixpanel class
    gets an empty object in place of missing settings. *)
Definition constructor_settings (type : string)
    (settings : option (gmap string setting)) : option (gmap string setting) :=
  if String.eqb type "mixpanel" then Some (default ∅ settings) else settings.

(** The tables of a tree, in tree order. *)
Definition all_tables (tree : list InformationSchema.t) : list Table.t :=
  concat ((λ database,
             concat (Schema.tables <$> InformationSchema.schemas database)) <$> tree).

(** A tree with the links to columns documents taken off its tables. *)
Definition unlinked_table (t : Table.t) : Table.t := Table.set_columns_id None t.

Definition unlinked_schema (s : Schema.t) : Schema.t :=
  Schema.set_tables (unlinked_table <$> Schema.tables s) s.

Definition unlinked (database : InformationSchema.t) : InformationSchema.t :=
  InformationSchema.set_schemas
    (unlinked_schema <$> InformationSchema.schemas database) database.

(** A table points to a stored columns document: its columns_id is the id
    of the document, which holds the columns of the table, in their order,
    as documents, and belongs to the organization. *)
Definition linked (organization : string) (t : Table.t) (doc : gmap string Field)
  : Prop :=
  Table.columns_id t = doc_id doc
  ∧ is_Some (doc_id doc)
  ∧ (∃ ds, doc !! "columns" = Some (FDocumentArray ds) ∧ ds.*2 = Table.columns t)
  ∧ doc !! "organization" = Some (FString organization).

(** The id field of the columns document stamped [t]. *)
Definition columns_id_of (t : N) : option Field :=
  Some (FString ("cols_" +:+ machine +:+ toString36 t)).

(** Stamps that rise strictly from above [lo] up to [hi]. *)
Fixpoint stamps_in (lo hi : N) (stamps : list N) : Prop :=
  match stamps with
  | [] => (lo ≤ hi)%N
  | t :: stamps' => (lo < t)%N ∧ stamps_in t hi stamps'
  end.

(** What persisting columns does to the world: the documents are appended
    to their collection, one journal entry each, under rising stamps, none
    below the reading of the clock it was made from; the other collections,
    the heap and the driver-call trace stay. *)
Definition columns_persisted (w w' : World) (docs : list (gmap string Field)) : Prop :=
  heap w' = heap w
  ∧ driverCalls w' = driverCalls w
  ∧ informationSchemaColumns (store w') = informationSchemaColumns (store w) ++ docs
  ∧ informationSchemas (store w') = informationSchemas (store w)
  ∧ dataSources (store w') = dataSources (store w)
  ∧ journal (store w')
    = journal (store w) ++ replicate (length docs) OpCreateInformationSchemaColumns
  ∧ ∃ stamps, (λ d : gmap string Field, d !! "id") <$> docs = columns_id_of <$> stamps
              ∧ stamps_in (uniqLast w) (uniqLast w') stamps
              ∧ (clockReads w ≤ clockReads w')%nat
              ∧ Forall (λ t, ∃ i, (clockReads w ≤ i)%nat ∧ (Date_now i ≤ t)%N) stamps.

(** A loop body that persists the columns of the tables of its element and
    links each table to its document. *)
Definition persists {A : Type} (organization : string) (tabs : A → list Table.t)
    (unl : A → A) (body : A → M A) : Prop :=
  ∀ x w, ∃ x' w' docs,
    body x w = (Ok x', w')
    ∧ unl x' = unl x
    ∧ length (tabs x') = length (tabs x)
    ∧ columns_persisted w w' docs
    ∧ Forall2 (linked organization) (tabs x') docs.



#[local] Instance defined_dec (kv : string * value) : Decision (defined kv).
Proof. unfold defined. apply _. Defined.


(** ** Properties *)

(** *** Running the monad *)

Lemma bind_ok {A B : Type} (m : M A) (f : A → M B) (w w1 : World) (a : A) :
  m w = (Ok a, w1) → (m ≫= f) w = f a w1.
Proof. intros H. unfold mbind, M_bind. by rewrite H. Qed.

Lemma bind_throw {A B : Type} (m : M A) (f : A → M B) (w w1 : World) (e : Thrown) :
  m w = (Throw e, w1) → (m ≫= f) w = (Throw e, w1).
Proof. intros H. unfold mbind, M_bind. by rewrite H. Qed.

Lemma new_frame (C : Constructor) params settings w r w1 :
  new C params settings w = (r, w1) → same_outside_heap w w1.
Proof.
  unfold new, mbind, M_bind, new_object, mret, M_ret.
  destruct (C params settings) as [d|e]; intros [= <- <-]; by repeat split.
Qed.

Lemma getIntegrationObj_frame type params settings w r w1 :
  getIntegrationObj type params settings w = (r, w1) → same_outside_heap w w1.
Proof.
  unfold getIntegrationObj.
  repeat (case (String.eqb type _); [apply new_frame|]).
  intros [= <- <-]. by repeat split.
Qed.

Lemma getSourceIntegrationObject_frame datasource w r w1 :
  getSourceIntegrationObject datasource w = (r, w1) → same_outside_heap w w1.
Proof.
  unfold getSourceIntegrationObject, mbind, M_bind.
  destruct (getIntegrationObj _ _ _ w) as [[[obj|]|e] w2] eqn:E;
    apply getIntegrationObj_frame in E; by intros [= <- <-].
Qed.

(** *** Schema discovery *)

Lemma generateInformationSchema_skipped datasource w integration w1 :
  getSourceIntegrationObject datasource w = (Ok integration, w1) →
  SourceIntegrationInterface.getInformationSchema integration = None
  ∨ SourceIntegrationInterface.formatInformationSchema integration = None →
  generateInformationSchema datasource w = (Ok (mkGenerated (Some []) None), w1).
Proof.
  intros Hobj Hcap. unfold generateInformationSchema.
  rewrite (bind_ok _ _ _ _ _ Hobj).
  destruct Hcap as [-> | ->]; [done|].
  by destruct (SourceIntegrationInterface.getInformationSchema integration).
Qed.

Lemma generateInformationSchema_failed datasource w integration w1 g f (e : Error) :
  getSourceIntegrationObject datasource w = (Ok integration, w1) →
  SourceIntegrationInterface.getInformationSchema integration = Some g →
  SourceIntegrationInterface.formatInformationSchema integration = Some f →
  g (projectId_of integration w1) = Throw e
  ∨ (∃ raw, g (projectId_of integration w1) = Ok raw
            ∧ f raw (DataSourceInterface.type datasource) = Throw e) →
  ∃ w2, generateInformationSchema datasource w
        = (Ok (mkGenerated None (Some (message e))), w2)
        ∧ store w2 = store w.
Proof.
  intros Hobj Hg Hf Hfail. unfold generateInformationSchema.
  rewrite (bind_ok _ _ _ _ _ Hobj), Hg, Hf.
  apply getSourceIntegrationObject_frame in Hobj as (Hs & _).
  unfold try_catch, mbind, M_bind, get_prop, invoke, mret, M_ret.
  fold (projectId_of integration w1).
  destruct Hfail as [-> | (raw & -> & Hthrow)]; cbn [fst snd].
  - eexists. split; [reflexivity|]. exact Hs.
  - rewrite Hthrow. eexists. split; [reflexivity|]. exact Hs.
Qed.

Lemma generateInformationSchema_formatted datasource w integration w1 g f raw tree :
  getSourceIntegrationObject datasource w = (Ok integration, w1) →
  SourceIntegrationInterface.getInformationSchema integration = Some g →
  SourceIntegrationInterface.formatInformationSchema integration = Some f →
  g (projectId_of integration w1) = Ok raw →
  f raw (DataSourceInterface.type datasource) = Ok tree →
  ∃ w2, generateInformationSchema datasource w
        = (Ok (mkGenerated (Some tree) None), w2)
        ∧ store w2 = store w ∧ clockReads w2 = clockReads w
        ∧ uniqLast w2 = uniqLast w ∧ objectIds w2 = objectIds w.
Proof.
  intros Hobj Hg Hf Hraw Htree. unfold generateInformationSchema.
  rewrite (bind_ok _ _ _ _ _ Hobj), Hg, Hf.
  apply getSourceIntegrationObject_frame in Hobj as (Hs & Hc & Hu & Ho & _).
  unfold try_catch, mbind, M_bind, get_prop, invoke, mret, M_ret.
  fold (projectId_of integration w1). rewrite Hraw, Htree.
  eexists. split; [reflexivity|]. done.
Qed.

(** C4: a data source whose driver lacks getInformationSchema or
    formatInformationSchema gets the empty schema and no error from
    generateInformationSchema; that is a result, not a failure, and neither
    the store nor the driver is touched. *)
Theorem generateInformationSchema_unsupported datasource w integration w1 :
  getSourceIntegrationObject datasource w = (Ok integration, w1) →
  SourceIntegrationInterface.getInformationSchema integration = None
  ∨ SourceIntegrationInterface.formatInformationSchema integration = None →
  ∃ generated,
    generateInformationSchema datasource w = (Ok generated, w1)
    ∧ informationSchema generated = Some []
    ∧ error generated = None
    ∧ store w1 = store w ∧ driverCalls w1 = driverCalls w.
Proof.
  intros Hobj Hcap. eexists. split.
  - exact (generateInformationSchema_skipped _ _ _ _ Hobj Hcap).
  - apply getSourceIntegrationObject_frame in Hobj as (Hs & _ & _ & _ & Hc).
    done.
Qed.

(** C5: when the driver's getInformationSchema, or its
    formatInformationSchema, throws, generateInformationSchema returns the
    message of the error and no schema, and createInitialInformationSchema
    writes nothing to the store: no columns document, no schema document, no
    update of the data source. *)
Theorem failure_isolation datasource organization w integration w1 g f (e : Error) :
  getSourceIntegrationObject datasource w = (Ok integration, w1) →
  SourceIntegrationInterface.getInformationSchema integration = Some g →
  SourceIntegrationInterface.formatInformationSchema integration = Some f →
  g (projectId_of integration w1) = Throw e
  ∨ (∃ raw, g (projectId_of integration w1) = Ok raw
            ∧ f raw (DataSourceInterface.type datasource) = Throw e) →
  fst (generateInformationSchema datasource w)
    = Ok (mkGenerated None (Some (message e)))
  ∧ fst (createInitialInformationSchema datasource organization w) = Ok tt
  ∧ store (snd (createInitialInformationSchema datasource organization w))
    = store w.
Proof.
  intros Hobj Hg Hf Hfail.
  destruct (generateInformationSchema_failed _ _ _ _ _ _ _ Hobj Hg Hf Hfail)
    as (w2 & Hgen & Hs).
  unfold createInitialInformationSchema.
  rewrite (bind_ok _ _ _ _ _ Hgen), Hgen. done.
Qed.

(** *** Test queries *)

(** C8: when the driver lacks getTestQuery or runTestQuery, testQuery
    throws before it builds or runs anything: the world is as the
    construction of the driver left it, no call into the driver is made and
    the store is as it was. *)
Theorem testQuery_unsupported datasource query w integration w1 :
  getSourceIntegrationObject datasource w = (Ok integration, w1) →
  SourceIntegrationInterface.getTestQuery integration = None
  ∨ SourceIntegrationInterface.runTestQuery integration = None →
  testQuery datasource query w = (Throw (mkError "Unable to test query."), w1)
  ∧ driverCalls w1 = driverCalls w ∧ store w1 = store w.
Proof.
  intros Hobj Hcap. unfold testQuery.
  rewrite (bind_ok _ _ _ _ _ Hobj).
  apply getSourceIntegrationObject_frame in Hobj as (Hs & _ & _ & _ & Hc).
  split; [|done].
  destruct Hcap as [-> | ->]; [done|].
  by destruct (SourceIntegrationInterface.getTestQuery integration).
Qed.

(** C9: with both capabilities, when runTestQuery throws an error on the
    SQL getTestQuery built from the raw query, testQuery returns (it does
    not throw) the message of the error together with that SQL, and has
    called runTestQuery once. *)
Theorem testQuery_reports_failure datasource query w integration w1 build run sql
    (e : Error) :
  getSourceIntegrationObject datasource w = (Ok integration, w1) →
  SourceIntegrationInterface.getTestQuery integration = Some build →
  SourceIntegrationInterface.runTestQuery integration = Some run →
  build query = Ok sql →
  run sql = Throw e →
  ∃ w2,
    testQuery datasource query w
    = (Ok (mkTestQueryOutcome None None (Some (message e)) (Some sql)), w2)
    ∧ driverCalls w2
      = driverCalls w ++ [CallGetTestQuery query; CallRunTestQuery sql]
    ∧ store w2 = store w.
Proof.
  intros Hobj Hb Hr Hsql Hthrow. unfold testQuery.
  rewrite (bind_ok _ _ _ _ _ Hobj), Hb, Hr.
  apply getSourceIntegrationObject_frame in Hobj as (Hs & _ & _ & _ & Hc).
  unfold try_catch, mbind, M_bind, invoke, mret, M_ret. rewrite Hsql, Hthrow.
  eexists. split; [reflexivity|]. cbn. rewrite Hc, Hs, <- app_assoc. done.
Qed.

(** *** Identifiers *)

Lemma eval36_digits36 (fuel : nat) : ∀ n : N,
  (n < 2 ^ N.of_nat fuel)%N → eval36 (digits36 fuel n) = n.
Proof.
  induction fuel as [|fuel IH]; intros n Hn.
  - cbn in *. lia.
  - cbn [digits36 eval36]. destruct (N.ltb_spec n 36) as [Hlt|Hge].
    + cbn [eval36]. rewrite N.mod_small by done. lia.
    + rewrite IH.
      * pose proof (N.div_mod n 36). lia.
      * rewrite Nat2N.inj_succ, N.pow_succ_r' in Hn.
        apply N.Div0.div_lt_upper_bound. lia.
Qed.

Lemma digits36_bound (fuel : nat) : ∀ n : N,
  Forall (λ d, (d < 36)%N) (digits36 fuel n).
Proof.
  induction fuel as [|fuel IH]; intros n; cbn [digits36]; constructor.
  - by apply N.mod_upper_bound.
  - destruct (n <? 36)%N; [constructor | apply IH].
Qed.

Lemma digit36_inj (a b : N) :
  (a < 36)%N → (b < 36)%N → digit36 a = digit36 b → a = b.
Proof.
  intros Ha Hb H. apply (f_equal N_of_ascii) in H. unfold digit36 in H.
  destruct (N.ltb_spec a 10), (N.ltb_spec b 10);
    rewrite !N_ascii_embedding in H by lia; lia.
Qed.

Lemma map_digit36_inj (l1 : list N) : ∀ l2 : list N,
  Forall (λ d, (d < 36)%N) l1 → Forall (λ d, (d < 36)%N) l2 →
  map digit36 l1 = map digit36 l2 → l1 = l2.
Proof.
  induction l1 as [|a l1 IH]; intros [|b l2] H1 H2 H; try done.
  inversion H1; inversion H2; subst. cbn in H. injection H as Hd Hl.
  f_equal; [by apply digit36_inj | by apply IH].
Qed.

Lemma toString36_inj (n m : N) : toString36 n = toString36 m → n = m.
Proof.
  unfold toString36. intros H.
  apply (f_equal list_ascii_of_string) in H.
  rewrite !list_ascii_of_string_of_list_ascii in H.
  apply (f_equal (@rev ascii)) in H. rewrite !rev_involutive in H.
  apply map_digit36_inj in H; [|apply digits36_bound..].
  apply (f_equal eval36) in H.
  assert (Hfuel : ∀ k : N, (k < 2 ^ N.of_nat (S (N.to_nat (N.log2 k))))%N).
  { intros k. rewrite Nat2N.inj_succ, N2Nat.id.
    destruct (decide (k = 0%N)) as [->|Hk]; [done|].
    apply N.log2_spec. lia. }
  by rewrite !eval36_digits36 in H by apply Hfuel.
Qed.

Lemma uniqid_inj (prefix : string) (n m : N) :
  prefix +:+ machine +:+ toString36 n = prefix +:+ machine +:+ toString36 m → n = m.
Proof.
  intros H. apply String.app_inj in H. apply String.app_inj in H.
  by apply toString36_inj.
Qed.

Lemma next_stamp_gt (time last : N) : (last < next_stamp time last)%N.
Proof.
  unfold next_stamp.
  destruct (N.eqb_spec last 0) as [->|Hne].
  - rewrite N.ltb_irrefl. lia.
  - destruct (N.ltb_spec last time); lia.
Qed.

Lemma next_stamp_ge (time last : N) : (time ≤ next_stamp time last)%N.
Proof.
  unfold next_stamp.
  destruct (N.eqb_spec last 0) as [->|Hne].
  - rewrite N.ltb_irrefl. lia.
  - destruct (N.ltb_spec last time); lia.
Qed.

Lemma uniqid_run prefix w :
  uniqid prefix w
  = (Ok (prefix +:+ machine +:+ toString36 (next_stamp (Date_now (clockReads w)) (uniqLast w))),
     set_uniqLast (next_stamp (Date_now (clockReads w)) (uniqLast w))
       (set_clockReads (S (clockReads w)) w)).
Proof. reflexivity. Qed.

Lemma createInformationSchemaColumns_run columns organization w :
  createInformationSchemaColumns columns organization w
  = (Ok (toInterface (stored_columns_document columns organization w)),
     mkWorld (heap w) (nullPrototype w)
       (add_columns_document (stored_columns_document columns organization w) (store w))
       (S (S (S (clockReads w))))
       (next_stamp (Date_now (clockReads w)) (uniqLast w))
       (objectIds w + 1 + N.of_nat (length columns))%N
       (driverCalls w)).
Proof. reflexivity. Qed.

Lemma cast_columns_columns (first : N) (columns : list Column.t) :
  (cast_columns first columns).*2 = columns.
Proof.
  unfold cast_columns. revert first.
  induction columns as [|c columns IH]; intros first; [done|].
  cbn. f_equal. rewrite <- (IH (first + 1)%N) at 2.
  f_equal. apply imap_ext. intros i x _. cbn. f_equal. lia.
Qed.

Lemma toInterface_lookup (doc : gmap string Field) (k : string) :
  toInterface doc !! k = if decide (k = "__v" ∨ k = "_id") then None else doc !! k.
Proof.
  unfold toInterface, toJSON, omit. cbn [foldr].
  destruct (decide (k = "__v")) as [->|H1].
  { rewrite lookup_delete_eq. by rewrite decide_True by auto. }
  rewrite lookup_delete_ne by done.
  destruct (decide (k = "_id")) as [->|H2].
  { rewrite lookup_delete_eq. by rewrite decide_True by auto. }
  rewrite lookup_delete_ne by done.
  rewrite decide_False; [done|]. by intros [?|?].
Qed.

Lemma stored_columns_document_interface columns organization w :
  let doc := toInterface (stored_columns_document columns organization w) in
  doc !! "id"
    = Some (FString ("cols_" +:+ machine
              +:+ toString36 (next_stamp (Date_now (clockReads w)) (uniqLast w))))
  ∧ doc !! "organization" = Some (FString organization)
  ∧ doc !! "columns"
    = Some (FDocumentArray (cast_columns (objectIds w + 1) columns))
  ∧ doc !! "__v" = None ∧ doc !! "_id" = None
  ∧ dom doc = {[ "id"; "organization"; "columns"; "dateCreated"; "dateUpdated" ]}.
Proof.
  cbn zeta. rewrite !toInterface_lookup.
  unfold stored_columns_document, columns_record.
  split_and!; done.
Qed.

(** C10, as the code has it: createInformationSchemaColumns returns a
    document that lists the columns it was given, in their order, with the
    organization it was given and an id made of the prefix cols_ and a
    stamp newer than every stamp this process gave before; the document has
    the five fields of the interface and, among them, neither __v nor _id;
    and another call returns another id when it is made later in the same
    process (the last stamp of uniqid is no older there) or when the clock
    reads past the stamp of this id. *)
Theorem createInformationSchemaColumns_document columns organization w
    columns2 organization2 w2 :
  (uniqLast (snd (createInformationSchemaColumns columns organization w))
   ≤ uniqLast w2)%N
  ∨ (uniqLast (snd (createInformationSchemaColumns columns organization w))
     < Date_now (clockReads w2))%N →
  ∃ doc doc2 stamp ds,
    fst (createInformationSchemaColumns columns organization w) = Ok doc
    ∧ doc !! "columns" = Some (FDocumentArray ds)
    ∧ ds.*2 = columns
    ∧ doc !! "organization" = Some (FString organization)
    ∧ doc !! "id" = Some (FString ("cols_" +:+ machine +:+ toString36 stamp))
    ∧ (uniqLast w < stamp)%N
    ∧ doc !! "__v" = None ∧ doc !! "_id" = None
    ∧ dom doc = {[ "id"; "organization"; "columns"; "dateCreated"; "dateUpdated" ]}
    ∧ fst (createInformationSchemaColumns columns2 organization2 w2) = Ok doc2
    ∧ doc2 !! "id" ≠ doc !! "id".
Proof.
  rewrite !createInformationSchemaColumns_run. cbn [fst snd uniqLast]. intros Hlater.
  destruct (stored_columns_document_interface columns organization w)
    as (Hid & Horg & Hcols & Hv & Hi & Hdom).
  destruct (stored_columns_document_interface columns2 organization2 w2)
    as (Hid2 & _).
  do 4 eexists. split_and!; try eassumption; try reflexivity.
  - apply cast_columns_columns.
  - apply next_stamp_gt.
  - rewrite Hid, Hid2. intros H.
    assert (Hs : next_stamp (Date_now (clockReads w2)) (uniqLast w2)
                 = next_stamp (Date_now (clockReads w)) (uniqLast w)).
    { apply (uniqid_inj "cols_"). congruence. }
    pose proof (next_stamp_gt (Date_now (clockReads w2)) (uniqLast w2)).
    pose proof (next_stamp_ge (Date_now (clockReads w2)) (uniqLast w2)).
    destruct Hlater; lia.
Qed.

(** *** Synchronization *)

Lemma createInformationSchema_run tree organization w :
  createInformationSchema tree organization w
  = (Ok ("inf_" +:+ machine
           +:+ toString36 (next_stamp (Date_now (clockReads w)) (uniqLast w))),
     mkWorld (heap w) (nullPrototype w)
       (mkDocumentStore (informationSchemaColumns (store w))
          (informationSchemas (store w)
             ++ [mkInformationSchemaInterface
                   ("inf_" +:+ machine
                      +:+ toString36 (next_stamp (Date_now (clockReads w)) (uniqLast w)))
                   organization tree])
          (dataSources (store w))
          (journal (store w) ++ [OpCreateInformationSchema]))
       (S (clockReads w))
       (next_stamp (Date_now (clockReads w)) (uniqLast w))
       (objectIds w)
       (driverCalls w)).
Proof. reflexivity. Qed.

Lemma apply_update_backlink datasource schemaId :
  apply_update (DataSourceInterface.id datasource)
    (DataSourceInterface.organization datasource) (backlink datasource schemaId)
    datasource
  = DataSourceInterface.set_settings
      (Some (<["informationSchemaId" := SValue (VStr schemaId)]>
               (default ∅ (DataSourceInterface.settings datasource))))
      datasource.
Proof.
  unfold apply_update, backlink. rewrite !String.eqb_refl. cbn.
  by rewrite <- insert_union_l, (idemp (∪) (default ∅ _)).
Qed.

Lemma apply_update_other id organization updates d :
  DataSourceInterface.id d ≠ id ∨ DataSourceInterface.organization d ≠ organization →
  apply_update id organization updates d = d.
Proof.
  unfold apply_update. intros [H|H]; apply String.eqb_neq in H; rewrite H; [done|].
  by rewrite andb_false_r.
Qed.

Lemma createInitialInformationSchema_empty datasource organization w w2 :
  generateInformationSchema datasource w = (Ok (mkGenerated (Some []) None), w2) →
  ∃ w' schemaId,
    createInitialInformationSchema datasource organization w = (Ok tt, w')
    ∧ informationSchemaColumns (store w') = informationSchemaColumns (store w2)
    ∧ informationSchemas (store w')
      = informationSchemas (store w2)
          ++ [mkInformationSchemaInterface schemaId organization []]
    ∧ dataSources (store w')
      = apply_update (DataSourceInterface.id datasource) organization
          (backlink datasource schemaId) <$> dataSources (store w2)
    ∧ journal (store w')
      = journal (store w2) ++ [OpCreateInformationSchema; OpUpdateDataSource].
Proof.
  intros Hgen. unfold createInitialInformationSchema.
  rewrite (bind_ok _ _ _ _ _ Hgen). cbn [informationSchema for_of].
  unfold mbind at 1. unfold M_bind at 1. unfold mret at 1. unfold M_ret at 1.
  erewrite bind_ok by apply createInformationSchema_run.
  cbn [truthy String.append String.eqb negb].
  do 2 eexists. split; [reflexivity|]. cbn. by rewrite <- app_assoc.
Qed.

(** C6, as the code has it: for a data source whose driver lacks
    getInformationSchema, createInitialInformationSchema creates no columns
    document, but it does create one InformationSchema document, holding
    the empty tree, and sends the update that points the data source to
    it. *)
Theorem createInitialInformationSchema_unsupported datasource organization w
    integration w1 :
  getSourceIntegrationObject datasource w = (Ok integration, w1) →
  SourceIntegrationInterface.getInformationSchema integration = None →
  ∃ w' schemaId,
    createInitialInformationSchema datasource organization w = (Ok tt, w')
    ∧ informationSchemaColumns (store w') = informationSchemaColumns (store w)
    ∧ informationSchemas (store w')
      = informationSchemas (store w)
          ++ [mkInformationSchemaInterface schemaId organization []]
    ∧ dataSources (store w')
      = apply_update (DataSourceInterface.id datasource) organization
          (backlink datasource schemaId) <$> dataSources (store w)
    ∧ journal (store w')
      = journal (store w) ++ [OpCreateInformationSchema; OpUpdateDataSource].
Proof.
  intros Hobj Hcap.
  pose proof (generateInformationSchema_skipped _ _ _ _ Hobj (or_introl Hcap)) as Hgen.
  apply getSourceIntegrationObject_frame in Hobj as (Hs & _).
  destruct (createInitialInformationSchema_empty datasource organization _ _ Hgen)
    as (w' & schemaId & Hrun & H). rewrite Hs in H. by exists w', schemaId.
Qed.

(** C7: the driver returns one database with one schema with one table of
    three columns.  The synchronization then (1) creates exactly one columns
    document, holding those three columns, each as a document under an _id
    of its own, (2) creates exactly one
    InformationSchema document, whose only table has that document's id as
    its columns_id, (3) sets settings.informationSchemaId of the data
    source record to the id of the new InformationSchema document, and (4)
    leaves its other settings, its other fields and the other records as
    they were. *)
Theorem full_synchronization datasource organization w integration w1 g f raw
    db sch tbl c1 c2 c3 cid :
  getSourceIntegrationObject datasource w = (Ok integration, w1) →
  SourceIntegrationInterface.getInformationSchema integration = Some g →
  SourceIntegrationInterface.formatInformationSchema integration = Some f →
  g (projectId_of integration w1) = Ok raw →
  f raw (DataSourceInterface.type datasource)
    = Ok [InformationSchema.mk db [Schema.mk sch [Table.mk tbl [c1; c2; c3] cid]]] →
  DataSourceInterface.organization datasource = organization →
  ∃ w' columnsDoc columnsId schemaId i1 i2 i3,
    createInitialInformationSchema datasource organization w = (Ok tt, w')
    ∧ informationSchemaColumns (store w')
      = informationSchemaColumns (store w) ++ [columnsDoc]
    ∧ columnsDoc !! "columns"
      = Some (FDocumentArray [(i1, c1); (i2, c2); (i3, c3)])
    ∧ columnsDoc !! "id" = Some (FString columnsId)
    ∧ informationSchemas (store w')
      = informationSchemas (store w)
          ++ [mkInformationSchemaInterface schemaId organization
                [InformationSchema.mk db
                   [Schema.mk sch [Table.mk tbl [c1; c2; c3] (Some columnsId)]]]]
    ∧ (∀ i, dataSources (store w) !! i = Some datasource →
            dataSources (store w') !! i
            = Some (DataSourceInterface.set_settings
                      (Some (<["informationSchemaId" := SValue (VStr schemaId)]>
                               (default ∅ (DataSourceInterface.settings datasource))))
                      datasource))
    ∧ (∀ i d, dataSources (store w) !! i = Some d →
              DataSourceInterface.id d ≠ DataSourceInterface.id datasource
              ∨ DataSourceInterface.organization d ≠ organization →
              dataSources (store w') !! i = Some d)
    ∧ length (dataSources (store w')) = length (dataSources (store w))
    ∧ journal (store w')
      = journal (store w)
          ++ [OpCreateInformationSchemaColumns; OpCreateInformationSchema;
              OpUpdateDataSource].
Proof.
  intros Hobj Hg Hf Hraw Htree Horg.
  destruct (generateInformationSchema_formatted _ _ _ _ _ _ _ _ Hobj Hg Hf Hraw Htree)
    as (w2 & Hgen & Hs & _).
  destruct (stored_columns_document_interface [c1; c2; c3] organization w2)
    as (Hid & _ & Hcols & _).
  unfold createInitialInformationSchema.
  rewrite (bind_ok _ _ _ _ _ Hgen).
  cbn [informationSchema for_of InformationSchema.schemas Schema.tables Table.columns].
  unfold mbind, M_bind, mret, M_ret.
  rewrite createInformationSchemaColumns_run, createInformationSchema_run.
  cbn [truthy String.append String.eqb negb].
  unfold doc_id. rewrite Hid.
  eexists _, (stored_columns_document [c1; c2; c3] organization w2), _, _, _, _, _.
  split; [reflexivity|].
  cbn -[toString36 next_stamp]. rewrite Hs.
  split_and!.
  - done.
  - unfold stored_columns_document, columns_record. done.
  - unfold stored_columns_document, columns_record. done.
  - done.
  - intros i Hi. rewrite list_lookup_fmap, Hi. cbn. f_equal.
    rewrite <- Horg. apply apply_update_backlink.
  - intros i d Hi Hne. rewrite list_lookup_fmap, Hi. cbn. f_equal.
    by apply apply_update_other.
  - by rewrite length_fmap.
  - by rewrite <- !app_assoc.
Qed.

(** *** Parameters: redaction and merge *)

Lemma includes_elem_of (keys : list string) (k : string) :
  includes keys k = true ↔ k ∈ keys.
Proof.
  unfold includes. rewrite existsb_exists. split.
  - intros (x & Hin & ->%String.eqb_eq). by apply list_elem_of_In.
  - intros Hin. exists k. split; [by apply list_elem_of_In | apply String.eqb_refl].
Qed.

Lemma heap_alter_insert (h : gmap positive (gmap string value)) l o f :
  h !! l = Some o → alter f l h = <[l := f o]> h.
Proof.
  intros H. apply map_eq. intros i. destruct (decide (i = l)) as [->|Hne].
  - by rewrite lookup_alter_eq, lookup_insert_eq, H.
  - by rewrite lookup_alter_ne, lookup_insert_ne.
Qed.

Lemma redact_lookup (keys : list string) : ∀ (o : gmap string value) (k : string),
  redact keys o !! k
  = if bool_decide (k ∈ keys) && truthy (prop o k) then Some (VStr EmptyString)
    else o !! k.
Proof.
  induction keys as [|a keys IH]; intros o k; [done|].
  unfold redact in IH |- *. cbn [foldl]. rewrite IH.
  destruct (decide (k = a)) as [->|Hne].
  - rewrite (bool_decide_eq_true_2 (a ∈ a :: keys)) by constructor.
    destruct (truthy (prop o a)) eqn:Ht; cbn.
    + unfold prop at 1. rewrite lookup_insert_eq. cbn. by rewrite andb_false_r.
    + by rewrite Ht, andb_false_r.
  - assert (bool_decide (k ∈ a :: keys) = bool_decide (k ∈ keys)) as ->.
    { apply bool_decide_ext. rewrite elem_of_cons.
      split; [by intros [?|?] | by right]. }
    destruct (truthy (prop o a)); [|done].
    unfold prop at 1. by rewrite !lookup_insert_ne.
Qed.

Lemma get_prop_run l k w o :
  heap w !! l = Some o → get_prop l k w = (Ok (prop o k), w).
Proof. intros H. unfold get_prop, own_properties. by rewrite H. Qed.

Lemma reaches_setter_inv (o : gmap string value) b k :
  reaches_setter o b k = true → k = "__proto__" ∧ o !! k = None ∧ b = false.
Proof.
  unfold reaches_setter. intros [[Hk Ho]%andb_true_iff Hb]%andb_true_iff.
  apply String.eqb_eq in Hk. apply bool_decide_eq_true_1 in Ho.
  apply negb_true_iff in Hb. done.
Qed.

Lemma reaches_setter_own (o : gmap string value) b k :
  is_Some (o !! k) → reaches_setter o b k = false.
Proof.
  intros [v Hv]. destruct (reaches_setter o b k) eqn:Hr; [|done].
  apply reaches_setter_inv in Hr as (_ & Hnone & _). congruence.
Qed.

Lemma reaches_setter_other (o : gmap string value) b k :
  k ≠ "__proto__" → reaches_setter o b k = false.
Proof.
  intros Hk. destruct (reaches_setter o b k) eqn:Hr; [|done].
  by apply reaches_setter_inv in Hr as (? & _).
Qed.

Lemma truthy_own (o : gmap string value) k :
  truthy (prop o k) = true → is_Some (o !! k).
Proof. unfold prop. destruct (o !! k); [eauto|done]. Qed.

Lemma set_prop_run l k v w o :
  heap w !! l = Some o →
  reaches_setter o (bool_decide (l ∈ nullPrototype w)) k = false →
  set_prop l k v w = (Ok tt, set_heap (<[l := <[k := v]> o]> (heap w)) w).
Proof.
  intros H Hr.
  assert (Hown : own_properties l w = o) by (unfold own_properties; by rewrite H).
  unfold set_prop. rewrite Hown, Hr. by rewrite (heap_alter_insert _ _ _ _ H).
Qed.

Lemma set_prop_setter l k v w o :
  heap w !! l = Some o →
  reaches_setter o (bool_decide (l ∈ nullPrototype w)) k = true →
  set_prop l k v w
  = (Ok tt, if bool_decide (v = VNull)
            then set_nullPrototype ({[l]} ∪ nullPrototype w) w else w).
Proof.
  intros H Hr.
  assert (Hown : own_properties l w = o) by (unfold own_properties; by rewrite H).
  unfold set_prop. rewrite Hown, Hr. by destruct v.
Qed.

Lemma forEach_redact ret (keys : list string) : ∀ w o,
  heap w !! ret = Some o →
  ∃ w', forEach keys
          (λ k, v ← get_prop ret k;
                if truthy v then set_prop ret k (VStr EmptyString) else mret tt) w
        = (Ok tt, w')
        ∧ heap w' = <[ret := redact keys o]> (heap w)
        ∧ nullPrototype w' = nullPrototype w
        ∧ same_outside_heap w w'.
Proof.
  induction keys as [|a keys IH]; intros w o Ho.
  - exists w. cbn. split; [done|]. split; [|done].
    unfold redact. cbn. by rewrite insert_id.
  - cbn [forEach]. unfold redact. cbn [foldl]. fold (redact keys).
    destruct (truthy (prop o a)) eqn:Ht.
    + destruct (IH (set_heap (<[ret := <[a := VStr EmptyString]> o]> (heap w)) w)
                  (<[a := VStr EmptyString]> o)) as (w' & Hrun & Hh & Hn & Hf).
      { cbn. apply lookup_insert_eq. }
      exists w'. split; [|split; [|split; [exact Hn|exact Hf]]].
      * erewrite bind_ok; [exact Hrun|].
        erewrite bind_ok by (by apply get_prop_run).
        rewrite Ht. apply set_prop_run; [done|].
        by apply reaches_setter_own, truthy_own.
      * rewrite Hh. cbn. by rewrite insert_insert_eq.
    + destruct (IH w o Ho) as (w' & Hrun & Hh & Hn & Hf).
      exists w'. split; [|split; [exact Hh|split; [exact Hn|exact Hf]]].
      erewrite bind_ok; [exact Hrun|].
      erewrite bind_ok by (by apply get_prop_run).
      by rewrite Ht.
Qed.

Lemma spread_run l w o :
  heap w !! l = Some o →
  spread l w
  = (Ok (fresh (dom (heap w))),
     set_nullPrototype (nullPrototype w ∖ {[fresh (dom (heap w))]})
       (set_heap (<[fresh (dom (heap w)) := o]> (heap w)) w)).
Proof. intros H. unfold spread, new_object, own_properties. by rewrite H. Qed.

Lemma getNonSensitiveParams_run integration w stored :
  heap w !! SourceIntegrationInterface.params integration = Some stored →
  ∃ w',
    getNonSensitiveParams integration w = (Ok (fresh (dom (heap w))), w')
    ∧ heap w'
      = <[fresh (dom (heap w)) :=
            redact (SourceIntegrationInterface.getSensitiveParamKeys integration)
              stored]> (heap w)
    ∧ nullPrototype w' = nullPrototype w ∖ {[fresh (dom (heap w))]}
    ∧ same_outside_heap w w'.
Proof.
  intros Hp.
  destruct (forEach_redact (fresh (dom (heap w)))
              (SourceIntegrationInterface.getSensitiveParamKeys integration)
              (set_nullPrototype (nullPrototype w ∖ {[fresh (dom (heap w))]})
                 (set_heap (<[fresh (dom (heap w)) := stored]> (heap w)) w)) stored)
    as (w' & Hrun & Hh & Hn & Hf).
  { apply lookup_insert_eq. }
  cbn in Hh. rewrite insert_insert_eq in Hh.
  exists w'. split_and!; [|done|done|done].
  unfold getNonSensitiveParams.
  erewrite bind_ok by (by apply spread_run).
  by erewrite bind_ok by exact Hrun.
Qed.

(** C2: getNonSensitiveParams returns a new object, a copy of the driver's
    params in which every sensitive key reads as empty (it is blanked when
    it held something, and was empty already otherwise) and every other key
    has the stored value; the stored params, and every other object, are as
    they were. *)
Theorem getNonSensitiveParams_redacts integration w stored :
  heap w !! SourceIntegrationInterface.params integration = Some stored →
  ∃ ret copy w',
    getNonSensitiveParams integration w = (Ok ret, w')
    ∧ heap w !! ret = None
    ∧ heap w' = <[ret := copy]> (heap w)
    ∧ heap w' !! SourceIntegrationInterface.params integration = Some stored
    ∧ (∀ k, k ∈ SourceIntegrationInterface.getSensitiveParamKeys integration →
            truthy (prop copy k) = false
            ∧ copy !! k = if truthy (prop stored k) then Some (VStr EmptyString)
                          else stored !! k)
    ∧ (∀ k, k ∉ SourceIntegrationInterface.getSensitiveParamKeys integration →
            copy !! k = stored !! k)
    ∧ same_outside_heap w w'.
Proof.
  intros Hp.
  destruct (getNonSensitiveParams_run integration w stored Hp)
    as (w' & Hrun & Hh & _ & Hf).
  assert (Hfresh : heap w !! fresh (dom (heap w)) = None).
  { apply not_elem_of_dom. apply is_fresh. }
  exists (fresh (dom (heap w))),
    (redact (SourceIntegrationInterface.getSensitiveParamKeys integration) stored), w'.
  split_and!; try done.
  - rewrite Hh, lookup_insert_ne; [done|]. intros Heq. congruence.
  - intros k Hk. pose proof (redact_lookup
      (SourceIntegrationInterface.getSensitiveParamKeys integration) stored k) as Hl.
    rewrite bool_decide_eq_true_2 in Hl by done. cbn in Hl.
    split; [|exact Hl]. unfold prop at 1. rewrite Hl.
    destruct (truthy (prop stored k)) eqn:Ht; [done|]. exact Ht.
  - intros k Hk. rewrite redact_lookup. by rewrite bool_decide_eq_false_2.
Qed.

(** *** The merge, key by key *)

Lemma merge_key_other secretKeys update s a k :
  k ≠ a →
  (merge_key secretKeys update s a).1 !! k = s.1 !! k
  ∧ reaches_setter (merge_key secretKeys update s a).1
      (merge_key secretKeys update s a).2 k
    = reaches_setter s.1 s.2 k.
Proof.
  intros Hne. unfold merge_key.
  destruct (skipped secretKeys update a); [done|].
  destruct (reaches_setter s.1 s.2 a) eqn:Hr; cbn [fst snd].
  - apply reaches_setter_inv in Hr as (-> & _ & _).
    split; [done|]. by rewrite !reaches_setter_other.
  - split; [by rewrite lookup_insert_ne|].
    unfold reaches_setter. by rewrite lookup_insert_ne.
Qed.

Lemma elem_of_cons_ne (keys : list string) (a k : string) :
  k ≠ a → bool_decide (k ∈ a :: keys) = bool_decide (k ∈ keys).
Proof.
  intros Hne. apply bool_decide_ext. rewrite elem_of_cons.
  split; [by intros [?|?] | by right].
Qed.

Lemma merged_cons secretKeys update (a : string) (keys : list string) s :
  merged secretKeys (a :: keys) update s
  = merged secretKeys keys update (merge_key secretKeys update s a).
Proof. reflexivity. Qed.

Lemma merged_lookup secretKeys update (keys : list string) :
  NoDup keys →
  ∀ (s : gmap string value * bool) (k : string),
  (merged secretKeys keys update s).1 !! k
  = if stores secretKeys keys update s k then Some (prop update k) else s.1 !! k.
Proof.
  induction 1 as [|a keys Ha Hnd IH]; intros s k; [done|].
  rewrite merged_cons, IH. unfold stores.
  destruct (decide (k = a)) as [->|Hne].
  - rewrite (bool_decide_eq_false_2 (a ∈ keys)) by done.
    rewrite (bool_decide_eq_true_2 (a ∈ a :: keys)) by constructor.
    cbn [andb]. unfold merge_key.
    destruct (skipped secretKeys update a); [done|].
    destruct (reaches_setter s.1 s.2 a); [done|].
    cbn. by rewrite lookup_insert_eq.
  - destruct (merge_key_other secretKeys update s a k Hne) as [-> ->].
    by rewrite elem_of_cons_ne.
Qed.

Lemma merged_flag secretKeys update (keys : list string) :
  NoDup keys →
  ∀ s : gmap string value * bool,
  (merged secretKeys keys update s).2
  = s.2 || drops_prototype secretKeys keys update s.
Proof.
  induction 1 as [|a keys Ha Hnd IH]; intros s.
  { cbn. by rewrite orb_false_r. }
  rewrite merged_cons, IH. unfold drops_prototype.
  destruct (decide (a = "__proto__")) as [->|Hne].
  - rewrite (bool_decide_eq_false_2 ("__proto__" ∈ keys)) by done.
    rewrite (bool_decide_eq_true_2 ("__proto__" ∈ "__proto__" :: keys)) by constructor.
    cbn [andb]. rewrite orb_false_r. unfold merge_key.
    destruct (skipped secretKeys update "__proto__"); cbn [negb andb].
    { by rewrite orb_false_r. }
    destruct (reaches_setter s.1 s.2 "__proto__"); cbn [snd andb]; [done|].
    by rewrite orb_false_r.
  - assert (Hne' : "__proto__" ≠ a) by done.
    destruct (merge_key_other secretKeys update s a "__proto__" Hne') as [_ ->].
    rewrite (elem_of_cons_ne keys a "__proto__") by done.
    f_equal. unfold merge_key.
    destruct (skipped secretKeys update a); [done|].
    by rewrite reaches_setter_other.
Qed.

Lemma merged_flag_set secretKeys update (keys : list string) :
  ∀ o : gmap string value, (merged secretKeys keys update (o, true)).2 = true.
Proof.
  induction keys as [|a keys IH]; intros o; [done|].
  rewrite merged_cons. unfold merge_key.
  destruct (skipped secretKeys update a); [apply IH|].
  unfold reaches_setter. cbn [fst snd negb]. rewrite andb_false_r. apply IH.
Qed.

Lemma null_prototype_again (l : positive) (s : gset positive) :
  l ∈ s → {[l]} ∪ s = s.
Proof. intros H. apply subseteq_union_1_L. by apply singleton_subseteq_l. Qed.

Lemma forEach_merge secretKeys target newParams update (keys : list string) :
  ∀ w o,
  heap w !! target = Some o →
  (∀ k, prop (own_properties newParams w) k = prop update k) →
  ∃ w', forEach keys
          (λ k, v ← get_prop newParams k;
                if includes secretKeys k && negb (truthy v) then mret tt
                else v' ← get_prop newParams k; set_prop target k v') w
        = (Ok tt, w')
        ∧ heap w'
          = <[target := (merged secretKeys keys update
                           (o, bool_decide (target ∈ nullPrototype w))).1]> (heap w)
        ∧ nullPrototype w'
          = (if (merged secretKeys keys update
                   (o, bool_decide (target ∈ nullPrototype w))).2
             then {[target]} ∪ nullPrototype w else nullPrototype w)
        ∧ same_outside_heap w w'.
Proof.
  induction keys as [|a keys IH]; intros w o Ho Hu.
  - exists w. cbn. split; [done|]. split; [by rewrite insert_id|]. split; [|done].
    destruct (bool_decide_reflect (target ∈ nullPrototype w)); [|done].
    by rewrite null_prototype_again.
  - cbn [forEach]. rewrite !merged_cons.
    assert (Hget : get_prop newParams a w = (Ok (prop update a), w)).
    { unfold get_prop. by rewrite Hu. }
    unfold merge_key.
    destruct (skipped secretKeys update a) eqn:Hskip.
    { destruct (IH w o Ho Hu) as (w' & Hrun & Hh & Hn & Hf).
      exists w'. split; [|done].
      erewrite bind_ok; [exact Hrun|].
      erewrite bind_ok by exact Hget. unfold skipped in Hskip. by rewrite Hskip. }
    cbn [fst snd].
    destruct (reaches_setter o (bool_decide (target ∈ nullPrototype w)) a) eqn:Hr.
    + pose proof (reaches_setter_inv _ _ _ Hr) as (_ & _ & Hb). rewrite Hb in *.
      cbn [orb].
      destruct (bool_decide_reflect (prop update a = VNull)) as [Hnull|Hnull].
      * destruct (IH (set_nullPrototype ({[target]} ∪ nullPrototype w) w) o Ho Hu)
          as (w' & Hrun & Hh & Hn & Hf).
        cbn [nullPrototype set_nullPrototype heap] in Hh, Hn.
        assert (Hin : target ∈ {[target]} ∪ nullPrototype w).
        { by apply elem_of_union_l, elem_of_singleton_2. }
        rewrite (bool_decide_eq_true_2 _ Hin) in Hh.
        rewrite (bool_decide_eq_true_2 _ Hin) in Hn.
        rewrite merged_flag_set in Hn. rewrite merged_flag_set.
        exists w'. split; [|split; [exact Hh|split; [|exact Hf]]].
        -- erewrite bind_ok; [exact Hrun|].
           erewrite bind_ok by exact Hget. unfold skipped in Hskip. rewrite Hskip.
           erewrite bind_ok by exact Hget.
           rewrite (set_prop_setter _ _ _ _ _ Ho) by (by rewrite Hb).
           by rewrite bool_decide_eq_true_2.
        -- rewrite Hn. by apply null_prototype_again.
      * destruct (IH w o Ho Hu) as (w' & Hrun & Hh & Hn & Hf).
        rewrite Hb in Hh. rewrite Hb in Hn.
        exists w'. split; [|done].
        erewrite bind_ok; [exact Hrun|].
        erewrite bind_ok by exact Hget. unfold skipped in Hskip. rewrite Hskip.
        erewrite bind_ok by exact Hget.
        rewrite (set_prop_setter _ _ _ _ _ Ho) by (by rewrite Hb).
        by rewrite bool_decide_eq_false_2.
    + destruct (IH (set_heap (<[target := <[a := prop update a]> o]> (heap w)) w)
                  (<[a := prop update a]> o)) as (w' & Hrun & Hh & Hn & Hf).
      { cbn. apply lookup_insert_eq. }
      { intros k. unfold own_properties. cbn.
        destruct (decide (newParams = target)) as [->|Hne].
        - rewrite lookup_insert_eq. cbn. unfold prop at 1.
          destruct (decide (k = a)) as [->|Hka].
          + by rewrite lookup_insert_eq.
          + rewrite lookup_insert_ne by done. rewrite <- Hu.
            unfold own_properties. by rewrite Ho.
        - rewrite lookup_insert_ne by done. apply Hu. }
      cbn [nullPrototype set_heap heap] in Hh, Hn.
      exists w'. split; [|split; [|split; [exact Hn|exact Hf]]].
      * erewrite bind_ok; [exact Hrun|].
        erewrite bind_ok by exact Hget. unfold skipped in Hskip. rewrite Hskip.
        erewrite bind_ok by exact Hget. by apply set_prop_run.
      * rewrite Hh. by rewrite insert_insert_eq.
Qed.

Lemma elem_of_Object_keys (o : gmap string value) (k : string) :
  k ∈ (map_to_list o).*1 ↔ is_Some (o !! k).
Proof.
  rewrite list_elem_of_fmap. split.
  - intros ([k' v] & -> & Hin%elem_of_map_to_list). by exists v.
  - intros [v Hv]. exists (k, v). split; [done|]. by apply elem_of_map_to_list.
Qed.

Lemma mergeParams_run integration newParams w stored update :
  heap w !! SourceIntegrationInterface.params integration = Some stored →
  heap w !! newParams = Some update →
  ∃ w',
    mergeParams integration newParams w = (Ok tt, w')
    ∧ heap w'
      = <[SourceIntegrationInterface.params integration :=
            (after_merge integration update stored w).1]> (heap w)
    ∧ nullPrototype w'
      = (if (after_merge integration update stored w).2
         then {[SourceIntegrationInterface.params integration]} ∪ nullPrototype w
         else nullPrototype w)
    ∧ same_outside_heap w w'.
Proof.
  intros Hp Hu. unfold after_merge.
  destruct (forEach_merge
              (SourceIntegrationInterface.getSensitiveParamKeys integration)
              (SourceIntegrationInterface.params integration)
              newParams update (map_to_list update).*1 w stored Hp)
    as (w' & Hrun & Hh & Hn & Hf).
  { intros k. unfold own_properties. by rewrite Hu. }
  exists w'. split_and!; [|done|done|done].
  unfold mergeParams. erewrite bind_ok; [exact Hrun|].
  unfold Object_keys, own_properties. by rewrite Hu.
Qed.

(** What a merge stores, in terms of the update and the params before. *)
Lemma stores_update secretKeys (update : gmap string value) s k :
  stores secretKeys (map_to_list update).*1 update s k = true
  ↔ is_Some (update !! k)
    ∧ (k ∉ secretKeys ∨ truthy (prop update k) = true)
    ∧ (k ≠ "__proto__" ∨ is_Some (s.1 !! k) ∨ s.2 = true).
Proof.
  unfold stores, skipped.
  rewrite !andb_true_iff, !negb_true_iff, bool_decide_eq_true, elem_of_Object_keys.
  rewrite andb_false_iff, negb_false_iff, <- not_true_iff_false, includes_elem_of.
  split; [intros [[Hown Hskip] Hreach]|intros (Hown & Hskip & Hreach)];
    (split_and!; [done|done|]).
  - destruct (decide (k = "__proto__")) as [->|]; [right|by left].
    unfold reaches_setter in Hreach. cbn [String.eqb Ascii.eqb Bool.eqb andb] in Hreach.
    apply andb_false_iff in Hreach as [Hnone|Hb].
    + left. apply bool_decide_eq_false_1 in Hnone.
      by apply not_eq_None_Some.
    + right. by apply negb_false_iff.
  - destruct Hreach as [Hk|[Hsome|Hb]].
    + by apply reaches_setter_other.
    + by apply reaches_setter_own.
    + unfold reaches_setter. rewrite Hb. cbn. by rewrite andb_false_r.
Qed.

(** When a merge replaces the prototype, in terms of the update and the
    params before. *)
Lemma drops_prototype_update secretKeys (update : gmap string value) s :
  drops_prototype secretKeys (map_to_list update).*1 update s = true
  ↔ update !! "__proto__" = Some VNull
    ∧ ("__proto__" ∉ secretKeys)
    ∧ s.1 !! "__proto__" = None ∧ s.2 = false.
Proof.
  unfold drops_prototype, skipped.
  rewrite !andb_true_iff, !negb_true_iff, !bool_decide_eq_true, elem_of_Object_keys.
  rewrite andb_false_iff, negb_false_iff, <- not_true_iff_false, includes_elem_of.
  split.
  - intros [[[[v Hv] Hskip] Hreach] Hnull].
    apply reaches_setter_inv in Hreach as (_ & Hnone & Hb).
    unfold prop in Hnull, Hskip. rewrite Hv in Hnull, Hskip. cbn in Hnull, Hskip.
    subst v. split_and!; try done. by destruct Hskip.
  - intros (Hv & Hns & Hnone & Hb). unfold prop. rewrite Hv. cbn.
    split_and!; [by eexists|by left| |done].
    unfold reaches_setter. rewrite Hnone, Hb.
    by rewrite bool_decide_eq_true_2.
Qed.

(** C3, as the code has it: mergeParams keeps the stored value of a
    sensitive key when the update holds an empty value for it or none,
    writes the update's value for a key that is not sensitive and for a
    sensitive key whose new value is not empty, and keeps every key the
    update does not have; but a key named __proto__ is written only when
    the params own it already (or have lost their prototype): otherwise
    the assignment creates no property, and replaces the prototype of the
    params when the value is null.  No other object changes.  So, with pass
    sensitive, user a and pass secret stay as they are under the update
    with an empty pass, and pass becomes new under the update with pass
    new. *)
Theorem mergeParams_preserves_secrets integration newParams w stored update :
  heap w !! SourceIntegrationInterface.params integration = Some stored →
  heap w !! newParams = Some update →
  ∃ w' result,
    mergeParams integration newParams w = (Ok tt, w')
    ∧ heap w' = <[SourceIntegrationInterface.params integration := result]> (heap w)
    ∧ (∀ k, k ∈ SourceIntegrationInterface.getSensitiveParamKeys integration →
            truthy (prop update k) = false → result !! k = stored !! k)
    ∧ (∀ k v, update !! k = Some v →
              k ∉ SourceIntegrationInterface.getSensitiveParamKeys integration
              ∨ truthy v = true →
              k ≠ "__proto__" ∨ is_Some (stored !! k)
              ∨ SourceIntegrationInterface.params integration ∈ nullPrototype w →
              result !! k = Some v)
    ∧ (∀ k, update !! k = None → result !! k = stored !! k)
    ∧ (stored !! "__proto__" = None →
       SourceIntegrationInterface.params integration ∉ nullPrototype w →
       result !! "__proto__" = None)
    ∧ (SourceIntegrationInterface.params integration ∈ nullPrototype w'
       ↔ SourceIntegrationInterface.params integration ∈ nullPrototype w
         ∨ (update !! "__proto__" = Some VNull
            ∧ ("__proto__"
                 ∉ SourceIntegrationInterface.getSensitiveParamKeys integration)
            ∧ stored !! "__proto__" = None))
    ∧ (∀ l, l ≠ SourceIntegrationInterface.params integration →
            l ∈ nullPrototype w' ↔ l ∈ nullPrototype w)
    ∧ same_outside_heap w w'
    ∧ (SourceIntegrationInterface.getSensitiveParamKeys integration = ["pass"] →
       stored = <["user" := VStr "a"]> (<["pass" := VStr "secret"]> ∅) →
       (update = <["pass" := VStr EmptyString]> ∅ → result = stored)
       ∧ (update = <["pass" := VStr "new"]> ∅ →
          result = <["user" := VStr "a"]> (<["pass" := VStr "new"]> ∅))).
Proof.
  intros Hp Hu.
  set (secretKeys := SourceIntegrationInterface.getSensitiveParamKeys integration).
  set (p := SourceIntegrationInterface.params integration) in *.
  destruct (mergeParams_run integration newParams w stored update Hp Hu)
    as (w' & Hrun & Hh & Hn & Hf).
  unfold after_merge in Hh, Hn. fold secretKeys p in Hh, Hn.
  set (s := (stored, bool_decide (p ∈ nullPrototype w))) in *.
  set (result := (merged secretKeys (map_to_list update).*1 update s).1) in *.
  pose proof (NoDup_fst_map_to_list update) as Hnd.
  assert (Hlookup : ∀ k, result !! k
            = if stores secretKeys (map_to_list update).*1 update s k
              then Some (prop update k) else stored !! k).
  { intros k. unfold result. by rewrite merged_lookup. }
  assert (Hkept : ∀ k, k ∈ secretKeys → truthy (prop update k) = false →
                       result !! k = stored !! k).
  { intros k Hk Hempty. rewrite Hlookup.
    destruct (stores _ _ _ _ _) eqn:Hst; [|done].
    apply stores_update in Hst as (_ & [Hns|Ht] & _); [done|congruence]. }
  assert (Hwritten : ∀ k v, update !! k = Some v →
                            k ∉ secretKeys ∨ truthy v = true →
                            k ≠ "__proto__" ∨ is_Some (stored !! k)
                            ∨ p ∈ nullPrototype w →
                            result !! k = Some v).
  { intros k v Hk Hcase Hplain. rewrite Hlookup.
    assert (Hst : stores secretKeys (map_to_list update).*1 update s k = true).
    { apply stores_update. unfold prop. rewrite Hk. cbn.
      split_and!; [by eexists|done|].
      destruct Hplain as [?|[?|?]]; [by left|by right; left|right; right].
      by apply bool_decide_eq_true_2. }
    rewrite Hst. unfold prop. by rewrite Hk. }
  assert (Habsent : ∀ k, update !! k = None → result !! k = stored !! k).
  { intros k Hk. rewrite Hlookup.
    destruct (stores _ _ _ _ _) eqn:Hst; [|done].
    apply stores_update in Hst as ([v Hv] & _); congruence. }
  exists w', result.
  split_and!;
    [exact Hrun|exact Hh|exact Hkept|exact Hwritten|exact Habsent| | | |exact Hf|].
  - intros Hnone Hproto. rewrite Hlookup.
    destruct (stores _ _ _ _ _) eqn:Hst; [|done].
    apply stores_update in Hst as (_ & _ & [?|[[? ?]|Hb]]); [done|cbn in *; congruence|].
    cbn in Hb. by apply bool_decide_eq_true_1 in Hb.
  - rewrite Hn. rewrite merged_flag by done. unfold s at 1. cbn [snd].
    destruct (bool_decide_reflect (p ∈ nullPrototype w)) as [Hin|Hin]; cbn [orb].
    { split; [by left|]. intros _. by apply elem_of_union_l, elem_of_singleton_2. }
    destruct (drops_prototype _ _ _ _) eqn:Hd.
    + apply drops_prototype_update in Hd as (? & ? & ? & _).
      split; [by right|]. intros _. by apply elem_of_union_l, elem_of_singleton_2.
    + split; [done|]. intros [?|(Hv & Hns & Hnone)]; [done|]. exfalso.
      apply not_true_iff_false in Hd. apply Hd.
      apply drops_prototype_update. by split_and!.
  - intros l Hl. rewrite Hn. destruct (merged _ _ _ _).2; [|done].
    rewrite elem_of_union, elem_of_singleton. split; [by intros [?|?]|by right].
  - intros Hkeys Hstored. split; intros Hupdate; apply map_eq; intros k.
    + destruct (decide (k = "pass")) as [->|Hne].
      * apply Hkept; [rewrite Hkeys; constructor|].
        by rewrite Hupdate.
      * apply Habsent. rewrite Hupdate. by rewrite lookup_insert_ne.
    + destruct (decide (k = "pass")) as [->|Hne].
      * rewrite (Hwritten "pass" (VStr "new")); [done| |by right|by left].
        by rewrite Hupdate.
      * rewrite Habsent by (rewrite Hupdate; by rewrite lookup_insert_ne).
        rewrite Hstored.
        destruct (decide (k = "user")) as [->|Hne2]; [done|].
        by rewrite !lookup_insert_ne.
Qed.

(** *** The credential codec *)

Lemma append_assoc (a b c : string) : (a +:+ b) +:+ c = a +:+ (b +:+ c).
Proof. induction a as [|x a IH]; [done|]. cbn. f_equal. exact IH. Qed.

Lemma length_append (a b : string) :
  String.length (a +:+ b) = (String.length a + String.length b)%nat.
Proof. induction a as [|x a IH]; [done|]. cbn. f_equal. exact IH. Qed.

Lemma parse_chars_lex (c : ascii) (rest : string) :
  JSON.parse_chars (String c rest)
  = if Ascii.eqb c JSON.dquote then Some (EmptyString, rest)
    else match lex_char (String c rest) with
         | Some (b, rest') =>
             match JSON.parse_chars rest' with
             | Some (t, r) => Some (b +:+ t, r)
             | None => None
             end
         | None => None
         end.
Proof.
  cbn [JSON.parse_chars lex_char].
  destruct (Ascii.eqb c JSON.dquote); [done|].
  destruct (Ascii.eqb c JSON.backslash).
  - destruct rest as [|e rest']; [done|].
    destruct (Ascii.eqb e "u").
    + destruct rest' as [|h1 [|h2 [|h3 [|h4 rest'']]]]; try done.
      destruct (JSON.hex4 h1 h2 h3 h4); [|done].
      by destruct (JSON.parse_chars rest'') as [[t r]|].
    + destruct (JSON.unescape e); [|done].
      by destruct (JSON.parse_chars rest') as [[t r]|].
  - destruct (N_of_ascii c <? 32)%N; [done|].
    by destruct (JSON.parse_chars rest) as [[t r]|].
Qed.

Lemma lex_char_escape_char (c : ascii) (rest : string) :
  ∃ c' e, JSON.escape_char c +:+ rest = String c' e
          ∧ Ascii.eqb c' JSON.dquote = false
          ∧ lex_char (String c' e) = Some (String c EmptyString, rest).
Proof.
  destruct c as [[] [] [] [] [] [] [] []];
    do 2 eexists; (split; [vm_compute; reflexivity|]);
    split; vm_compute; reflexivity.
Qed.

Lemma parse_chars_escape_char (c : ascii) (rest : string) :
  JSON.parse_chars (JSON.escape_char c +:+ rest)
  = match JSON.parse_chars rest with
    | Some (t, r) => Some (String c t, r)
    | None => None
    end.
Proof.
  destruct (lex_char_escape_char c rest) as (c' & e & -> & Hq & Hlex).
  by rewrite parse_chars_lex, Hq, Hlex.
Qed.

Lemma parse_chars_escape (s rest : string) :
  JSON.parse_chars (JSON.escape s +:+ String JSON.dquote rest) = Some (s, rest).
Proof.
  induction s as [|c s IH]; [done|].
  cbn [JSON.escape]. by rewrite append_assoc, parse_chars_escape_char, IH.
Qed.

Lemma quote_append (s rest : string) :
  JSON.quote s +:+ rest
  = String JSON.dquote (JSON.escape s +:+ String JSON.dquote rest).
Proof. unfold JSON.quote. cbn. by rewrite append_assoc. Qed.

Lemma span_digits_uint (d : Decimal.uint) (rest : string) :
  delimited rest →
  JSON.span_digits (NilEmpty.string_of_uint d +:+ rest)
  = (NilEmpty.string_of_uint d, rest).
Proof.
  intros (r & Hr). induction d as [|d IH|d IH|d IH|d IH|d IH|d IH|d IH|d IH|d IH|d IH];
    cbn [NilEmpty.string_of_uint String.append JSON.span_digits];
    [by destruct Hr as [-> | ->] | ..];
    match goal with
    | |- context [JSON.is_digit ?c] => change (JSON.is_digit c) with true
    end;
    cbn iota; by rewrite IH.
Qed.

Lemma nzhead_shape (d : Decimal.uint) :
  match Decimal.nzhead d with Decimal.D0 _ => False | _ => True end.
Proof. induction d; cbn; auto. Qed.

Lemma to_uint_unorm (n : N) : N.to_uint n = Decimal.unorm (N.to_uint n).
Proof. by rewrite <- Unsigned.to_of, Unsigned.of_to. Qed.

(** The decimal text of a natural number: it starts with a digit, and with
    a zero only when it is that digit alone. *)
Lemma string_of_N_shape (n : N) :
  ∃ c s', NilZero.string_of_uint (N.to_uint n) = String c s'
          ∧ NilEmpty.string_of_uint (N.to_uint n) = String c s'
          ∧ JSON.is_digit c = true
          ∧ (s' = EmptyString ∨ Ascii.eqb c "0" = false).
Proof.
  rewrite to_uint_unorm. unfold Decimal.unorm.
  pose proof (nzhead_shape (N.to_uint n)) as Hz.
  destruct (Decimal.nzhead (N.to_uint n)); try done;
    do 2 eexists; (split; [reflexivity|]); (split; [reflexivity|]);
    split; auto.
Qed.

Lemma is_digit_first (c : ascii) :
  JSON.is_digit c = true →
  Ascii.eqb c JSON.dquote = false ∧ Ascii.eqb c "-" = false ∧ JSON.is_ws c = false.
Proof.
  destruct c as [[] [] [] [] [] [] [] []]; vm_compute; intros H;
    (discriminate H || (repeat split; reflexivity)).
Qed.

Lemma parse_nat_print (n : N) (rest : string) :
  delimited rest →
  JSON.parse_nat (NilZero.string_of_uint (N.to_uint n) +:+ rest) = Some (n, rest).
Proof.
  intros Hrest.
  destruct (string_of_N_shape n) as (c & s' & Hz & He & Hd & Hlead).
  unfold JSON.parse_nat. rewrite Hz, <- He, span_digits_uint, He by done.
  assert (Hnolead : match String c s' with
                    | String c0 (String _ _) => Ascii.eqb c0 "0"
                    | _ => false
                    end = false).
  { destruct Hlead as [-> | Hc]; [done|]. by destruct s'. }
  rewrite Hnolead.
  assert (Hstop : match rest with
                  | String c0 _ =>
                      Ascii.eqb c0 "." || Ascii.eqb c0 "e" || Ascii.eqb c0 "E"
                  | EmptyString => false
                  end = false).
  { by destruct Hrest as (r & [-> | ->]). }
  rewrite Hstop. cbn [orb]. rewrite <- Hz, NilZero.usu, Unsigned.of_to; [done|].
  rewrite to_uint_unorm. apply DecimalFacts.unorm_nonnil.
Qed.

Lemma skip_ws_start (c : ascii) (s : string) :
  JSON.is_ws c = false → JSON.skip_ws (String c s) = String c s.
Proof. intros H. cbn. by rewrite H. Qed.

Lemma expect_append (lit rest : string) : JSON.expect lit (lit +:+ rest) = Some rest.
Proof.
  induction lit as [|c lit IH]; [done|]. cbn. by rewrite Ascii.eqb_refl.
Qed.

(** The text of a value starts with a character that is not white space,
    and reads back as the value. *)
Lemma parse_value_print (v : value) (t rest : string) :
  JSON.print_value v = Some t →
  delimited rest →
  JSON.skip_ws (t +:+ rest) = t +:+ rest
  ∧ JSON.parse_value (t +:+ rest) = Some (v, rest).
Proof.
  intros Hv Hrest. destruct v as [| |[]|n|s]; cbn in Hv; try done;
    injection Hv as <-.
  - done.
  - done.
  - done.
  - unfold JSON.print_number. destruct n as [|p|p].
    + destruct (string_of_N_shape (Z.to_N 0)) as (c & s' & Hz & _ & Hd & _).
      pose proof (parse_nat_print (Z.to_N 0) rest Hrest) as Hn.
      rewrite Hz in *. destruct (is_digit_first c Hd) as (Hq & Hm & Hw).
      split; [by apply skip_ws_start|].
      cbn [String.append] in *. cbn [JSON.parse_value].
      by rewrite Hq, Hm, Hd, Hn.
    + destruct (string_of_N_shape (Z.to_N (Z.pos p))) as (c & s' & Hz & _ & Hd & _).
      pose proof (parse_nat_print (Z.to_N (Z.pos p)) rest Hrest) as Hn.
      rewrite Hz in *. destruct (is_digit_first c Hd) as (Hq & Hm & Hw).
      split; [by apply skip_ws_start|].
      cbn [String.append] in *. cbn [JSON.parse_value].
      by rewrite Hq, Hm, Hd, Hn.
    + split; [done|]. cbn [String.append JSON.parse_value].
      change (Ascii.eqb "-" JSON.dquote) with false.
      change (Ascii.eqb "-" "-") with true. cbn iota.
      by rewrite parse_nat_print.
  - rewrite quote_append. split; [done|].
    cbn [JSON.parse_value]. change (Ascii.eqb JSON.dquote JSON.dquote) with true.
    cbn iota. by rewrite parse_chars_escape.
Qed.

Lemma parse_members_step (fuel : nat) (k : string) (v : value) (t rest : string) :
  JSON.print_value v = Some t →
  delimited rest →
  JSON.parse_members (S fuel) (JSON.quote k +:+ (":" +:+ (t +:+ rest)))
  = match rest with
    | String c s =>
        if Ascii.eqb c "," then
          match JSON.parse_members fuel s with
          | Some (l, r) => Some ((k, v) :: l, r)
          | None => None
          end
        else if Ascii.eqb c "}" then Some ([(k, v)], s)
        else None
    | EmptyString => None
    end.
Proof.
  intros Hv Hrest.
  destruct (parse_value_print v t rest Hv Hrest) as (Hws & Hparse).
  rewrite quote_append. cbn [JSON.parse_members].
  rewrite skip_ws_start by done.
  change (Ascii.eqb JSON.dquote JSON.dquote) with true. cbn iota.
  rewrite parse_chars_escape. cbn [String.append].
  rewrite skip_ws_start by done.
  change (Ascii.eqb ":" ":") with true. cbn iota.
  rewrite Hws, Hparse.
  by destruct Hrest as (r & [-> | ->]).
Qed.

Lemma print_value_defined (v : value) :
  v ≠ VUndefined → ∃ t, JSON.print_value v = Some t.
Proof. destruct v as [| |[]| |]; intros H; try done; by eexists. Qed.

Lemma parse_members_print (l : list (string * value)) :
  Forall defined l → l ≠ [] →
  ∀ (fuel : nat) (rest : string),
    (length l ≤ fuel)%nat →
    JSON.parse_members fuel
      (JSON.join "," (JSON.print_members l) +:+ String "}" rest)
    = Some (l, rest).
Proof.
  induction l as [|[k v] l IH]; intros Hdef Hne fuel rest Hfuel; [done|].
  inversion Hdef as [|? ? Hv Hdef']; subst.
  destruct (print_value_defined v Hv) as (t & Ht).
  destruct fuel as [|fuel]; [cbn in Hfuel; lia|].
  cbn [JSON.print_members]. rewrite Ht.
  destruct l as [|kv l].
  - cbn [JSON.print_members JSON.join].
    rewrite !append_assoc.
    rewrite (parse_members_step fuel k v t (String "}" rest) Ht); [done|].
    eexists; by right.
  - assert (Hnext : ∃ m ms, JSON.print_members (kv :: l) = m :: ms).
    { destruct kv as [k' v']. inversion Hdef' as [|? ? Hv' ?]; subst.
      destruct (print_value_defined v' Hv') as (t' & Ht').
      cbn [JSON.print_members]. rewrite Ht'. by do 2 eexists. }
    destruct Hnext as (m & ms & Hm).
    specialize (IH Hdef' ltac:(done) fuel rest ltac:(cbn in *; lia)).
    rewrite Hm in *. cbn [JSON.join]. fold (JSON.join "," (m :: ms)).
    rewrite !append_assoc.
    rewrite (parse_members_step fuel k v t _ Ht) by (eexists; by left).
    cbn [String.append].
    change (Ascii.eqb "," ",") with true. cbn iota.
    cbn [JSON.join String.append] in IH. by rewrite IH.
Qed.

Lemma print_members_length (l : list (string * value)) :
  Forall defined l →
  (length l ≤ String.length (JSON.join "," (JSON.print_members l)))%nat.
Proof.
  induction l as [|[k v] l IH]; intros Hdef; [cbn; lia|].
  inversion Hdef as [|? ? Hv Hdef']; subst. specialize (IH Hdef').
  destruct (print_value_defined v Hv) as (t & Ht).
  cbn [JSON.print_members]. rewrite Ht.
  destruct (JSON.print_members l) as [|m ms] eqn:Hm.
  - destruct l as [|[k' v'] l]; [cbn; lia|].
    inversion Hdef' as [|? ? Hv' ?]; subst.
    destruct (print_value_defined v' Hv') as (t' & Ht').
    cbn [JSON.print_members] in Hm. by rewrite Ht' in Hm.
  - cbn [JSON.join]. fold (JSON.join "," (m :: ms)).
    rewrite !length_append. cbn [String.length length JSON.join] in *. lia.
Qed.

Lemma parse_object_print (l : list (string * value)) :
  Forall defined l →
  JSON.parse_object ("{" +:+ JSON.join "," (JSON.print_members l) +:+ "}")
  = Some (l, EmptyString).
Proof.
  intros Hdef. unfold JSON.parse_object. cbn [String.append].
  rewrite skip_ws_start by done. change (Ascii.eqb "{" "{") with true. cbn iota.
  destruct l as [|[k v] l]; [done|].
  pose proof (print_members_length _ Hdef) as Hlen.
  inversion Hdef as [|? ? Hv Hdef']; subst.
  destruct (print_value_defined v Hv) as (t & Ht).
  rewrite parse_members_print; [|done|done|rewrite length_append; cbn in *; lia].
  assert (Hstart : ∃ s, JSON.join "," (JSON.print_members ((k, v) :: l)) +:+ "}"
                        = String JSON.dquote s).
  { cbn [JSON.print_members]. rewrite Ht.
    destruct (JSON.print_members l); cbn [JSON.join]; rewrite quote_append;
      by eexists. }
  destruct Hstart as (s & ->).
  rewrite skip_ws_start by done.
  by change (Ascii.eqb JSON.dquote "}") with false.
Qed.

Lemma foldl_insert_list_to_map (l : list (string * value)) :
  ∀ m : gmap string value,
  NoDup l.*1 →
  foldl (λ o kv, <[kv.1 := kv.2]> o) m l = list_to_map l ∪ m.
Proof.
  induction l as [|[k v] l IH]; intros m Hnd.
  - cbn. by rewrite (left_id ∅ (∪)).
  - cbn in *. apply NoDup_cons in Hnd as [Hk Hnd]. rewrite IH by done.
    rewrite <- insert_union_l. symmetry. apply insert_union_r.
    by apply not_elem_of_list_to_map_1.
Qed.

(** JSON.parse undoes JSON.stringify on an object with no undefined
    value. *)
Lemma parse_stringify (o : gmap string value) :
  (∀ k v, o !! k = Some v → v ≠ VUndefined) →
  JSON.parse (JSON.stringify o) = Some o.
Proof.
  intros Hdef. unfold JSON.parse, JSON.stringify.
  rewrite parse_object_print.
  - cbn [JSON.skip_ws]. f_equal.
    rewrite foldl_insert_list_to_map by apply NoDup_fst_map_to_list.
    by rewrite (right_id ∅ (∪)), list_to_map_to_list.
  - apply Forall_forall. intros [k v] Hin%elem_of_map_to_list. by eapply Hdef.
Qed.

(** A property whose value is undefined does not survive the round trip:
    JSON has no text for it. *)
Example parse_stringify_undefined :
  JSON.parse (JSON.stringify (<["server" := VUndefined]> (<["projectId" := VStr "p"]> ∅)))
  = Some (<["projectId" := VStr "p"]> ∅).
Proof. vm_compute. reflexivity. Qed.

(** *** The factory *)

Lemma getIntegrationObj_dispatch type params settings :
  getIntegrationObj type params settings
  = match constructor_for type with
    | Some C => new C params (constructor_settings type settings)
    | None => mret None
    end.
Proof.
  unfold getIntegrationObj, constructor_for, constructor_settings.
  repeat match goal with
         | |- context [String.eqb type ?s] =>
             destruct (String.eqb_spec type s) as [->|_]; [reflexivity|]
         end.
  reflexivity.
Qed.

Lemma constructor_for_known type :
  is_Some (constructor_for type) ↔ type ∈ known_types.
Proof.
  unfold constructor_for, known_types. split.
  - repeat match goal with
           | |- context [String.eqb type ?s] =>
               destruct (String.eqb_spec type s) as [->|_];
                 [intros _; repeat (first [apply list_elem_of_here
                                          | apply list_elem_of_further])|]
           end.
    by intros [? ?].
  - intros Hin.
    repeat (apply elem_of_cons in Hin as [-> | Hin]; [cbn; eauto|]).
    by apply elem_of_nil in Hin.
Qed.

Lemma new_run (C : Constructor) params settings w :
  new C params settings w
  = match C params settings with
    | Ok d =>
        (Ok (Some (SourceIntegrationInterface.mk (fresh (dom (heap w))) settings
                     None None d)),
         set_nullPrototype (nullPrototype w ∖ {[fresh (dom (heap w))]})
           (set_heap (<[fresh (dom (heap w)) := driver_params d]> (heap w)) w))
    | Throw e => (Throw e, w)
    end.
Proof. unfold new, mbind, M_bind. by destruct (C params settings). Qed.

(** X1: a data source whose type is none of the twelve the factory knows
    makes getSourceIntegrationObject throw the error that names the type;
    no constructor runs and the world is as it was. *)
Theorem getSourceIntegrationObject_unknown_type datasource w :
  DataSourceInterface.type datasource ∉ known_types →
  getSourceIntegrationObject datasource w
  = (Throw (mkError ("Unknown data source type: "
                       +:+ DataSourceInterface.type datasource)), w).
Proof.
  intros Hunknown. unfold getSourceIntegrationObject.
  rewrite getIntegrationObj_dispatch.
  destruct (constructor_for (DataSourceInterface.type datasource)) as [C|] eqn:HC.
  - exfalso. apply Hunknown, constructor_for_known. by rewrite HC.
  - reflexivity.
Qed.

(** X2: the integration object the factory returns carries the organization
    and the id of the data source; its driver is what the class picked for
    the declared type constructed from the stored parameters and the
    settings (an empty object for Mixpanel without settings); its params
    is a new object of the heap, holding what the constructor decoded; and
    nothing but the heap changed. *)
Theorem getSourceIntegrationObject_built datasource w integration w1 :
  getSourceIntegrationObject datasource w = (Ok integration, w1) →
  SourceIntegrationInterface.organization integration
    = Some (DataSourceInterface.organization datasource)
  ∧ SourceIntegrationInterface.datasource integration
    = Some (DataSourceInterface.id datasource)
  ∧ SourceIntegrationInterface.settings integration
    = constructor_settings (DataSourceInterface.type datasource)
        (DataSourceInterface.settings datasource)
  ∧ DataSourceInterface.type datasource ∈ known_types
  ∧ (∃ C, constructor_for (DataSourceInterface.type datasource) = Some C
          ∧ C (DataSourceInterface.params datasource)
              (constructor_settings (DataSourceInterface.type datasource)
                 (DataSourceInterface.settings datasource))
            = Ok (SourceIntegrationInterface.driver integration))
  ∧ heap w !! SourceIntegrationInterface.params integration = None
  ∧ heap w1
    = <[SourceIntegrationInterface.params integration :=
          driver_params (SourceIntegrationInterface.driver integration)]> (heap w)
  ∧ same_outside_heap w w1.
Proof.
  intros Hrun. pose proof (getSourceIntegrationObject_frame _ _ _ _ Hrun) as Hframe.
  unfold getSourceIntegrationObject in Hrun.
  rewrite getIntegrationObj_dispatch in Hrun.
  destruct (constructor_for (DataSourceInterface.type datasource)) as [C|] eqn:HC;
    [|discriminate Hrun].
  unfold mbind, M_bind in Hrun. rewrite new_run in Hrun.
  destruct (C _ _) as [d|e] eqn:Hd; [|discriminate Hrun].
  injection Hrun as <- <-. cbn.
  split_and!; try done.
  - apply constructor_for_known. by rewrite HC.
  - by exists C.
  - apply not_elem_of_dom, is_fresh.
Qed.

Lemma getSourceIntegrationObject_throw datasource w e w1 :
  getSourceIntegrationObject datasource w = (Throw e, w1) → w1 = w.
Proof.
  unfold getSourceIntegrationObject. rewrite getIntegrationObj_dispatch.
  destruct (constructor_for _) as [C|]; [|by intros [= _ <-]].
  unfold mbind, M_bind. rewrite new_run.
  destruct (C _ _) as [d|e']; [discriminate|]. by intros [= _ <-].
Qed.

(** X3: an error thrown while the integration object is built (an unknown
    type, a constructor that throws) leaves every service through
    unchanged: each of the four throws that same error, and the world is
    as it was, with no driver call and no write. *)
Theorem construction_error_propagates datasource organization query w e w1 :
  getSourceIntegrationObject datasource w = (Throw e, w1) →
  generateInformationSchema datasource w = (Throw e, w)
  ∧ testDataSourceConnection datasource w = (Throw e, w)
  ∧ testQuery datasource query w = (Throw e, w)
  ∧ createInitialInformationSchema datasource organization w = (Throw e, w).
Proof.
  intros Hrun. pose proof (getSourceIntegrationObject_throw _ _ _ _ Hrun) as ->.
  assert (Hgen : generateInformationSchema datasource w = (Throw e, w)).
  { unfold generateInformationSchema. by apply bind_throw. }
  split_and!; [exact Hgen| | |].
  - unfold testDataSourceConnection. by apply bind_throw.
  - unfold testQuery. by apply bind_throw.
  - unfold createInitialInformationSchema. by apply bind_throw.
Qed.

(** *** Services that only read *)

Lemma generateInformationSchema_reads datasource w integration w1 :
  getSourceIntegrationObject datasource w = (Ok integration, w1) →
  ∃ w2,
    generateInformationSchema datasource w
    = (match discovered integration (DataSourceInterface.type datasource)
               (projectId_of integration w1) with
       | None => Ok (mkGenerated (Some []) None)
       | Some (Ok tree) => Ok (mkGenerated (Some tree) None)
       | Some (Throw (AnError e)) => Ok (mkGenerated None (Some (message e)))
       | Some (Throw (AValue v)) =>
           if decide (v = VNull ∨ v = VUndefined)
           then Throw (TypeError_reading "message" v)
           else Ok (mkGenerated None None)
       end, w2)
    ∧ store w2 = store w ∧ clockReads w2 = clockReads w
    ∧ uniqLast w2 = uniqLast w ∧ objectIds w2 = objectIds w
    ∧ heap w2 = heap w1.
Proof.
  intros Hobj.
  pose proof (getSourceIntegrationObject_frame _ _ _ _ Hobj) as (Hs & Hc & Hu & Ho & _).
  unfold generateInformationSchema, discovered.
  rewrite (bind_ok _ _ _ _ _ Hobj).
  destruct (SourceIntegrationInterface.getInformationSchema integration) as [g|];
    [|eexists; split; [reflexivity|]; cbn; by split_and!].
  destruct (SourceIntegrationInterface.formatInformationSchema integration) as [f|];
    [|eexists; split; [reflexivity|]; cbn; by split_and!].
  unfold try_catch, mbind, M_bind, get_prop, invoke, mret, M_ret.
  fold (projectId_of integration w1).
  destruct (g _) as [raw|t]; cbn.
  - destruct (f raw _) as [tree|t]; cbn.
    + eexists; split; [reflexivity|]; cbn; by split_and!.
    + destruct t as [e|[]]; cbn; (eexists; split; [reflexivity|]; cbn; by split_and!).
  - destruct t as [e|[]]; cbn; (eexists; split; [reflexivity|]; cbn; by split_and!).
Qed.

Lemma generateInformationSchema_frame datasource w :
  store (snd (generateInformationSchema datasource w)) = store w
  ∧ clockReads (snd (generateInformationSchema datasource w)) = clockReads w
  ∧ uniqLast (snd (generateInformationSchema datasource w)) = uniqLast w
  ∧ objectIds (snd (generateInformationSchema datasource w)) = objectIds w.
Proof.
  destruct (getSourceIntegrationObject datasource w) as [[integration|t] w1] eqn:Hobj.
  - destruct (generateInformationSchema_reads _ _ _ _ Hobj)
      as (w2 & -> & Hs & Hc & Hu & Ho & _). done.
  - pose proof (getSourceIntegrationObject_throw _ _ _ _ Hobj) as ->.
    unfold generateInformationSchema. by erewrite bind_throw by exact Hobj.
Qed.

(** X4: once the integration object is built, what generateInformationSchema
    gives is settled by the two driver calls.  Without the capabilities it
    returns the empty schema; when the driver answers, the tree; when the
    driver throws an Error, its message and no schema; when the driver
    throws a primitive, neither a schema nor a message; and when the driver
    throws null or undefined it throws itself, the TypeError of reading
    the message.  In every case it only talks to the driver: the store, the
    clock, the id stamps and the heap are as they were. *)
Theorem generateInformationSchema_outcome datasource w integration w1 :
  getSourceIntegrationObject datasource w = (Ok integration, w1) →
  ∃ w2,
    generateInformationSchema datasource w
    = (match discovered integration (DataSourceInterface.type datasource)
               (projectId_of integration w1) with
       | None => Ok (mkGenerated (Some []) None)
       | Some (Ok tree) => Ok (mkGenerated (Some tree) None)
       | Some (Throw (AnError e)) => Ok (mkGenerated None (Some (message e)))
       | Some (Throw (AValue v)) =>
           if decide (v = VNull ∨ v = VUndefined)
           then Throw (TypeError_reading "message" v)
           else Ok (mkGenerated None None)
       end, w2)
    ∧ store w2 = store w ∧ clockReads w2 = clockReads w
    ∧ uniqLast w2 = uniqLast w ∧ objectIds w2 = objectIds w
    ∧ heap w2 = heap w1.
Proof. apply generateInformationSchema_reads. Qed.

(** X5: with both schema capabilities and a driver that answers,
    generateInformationSchema returns the tree formatInformationSchema made
    of the raw rows; it calls getInformationSchema once, with the projectId
    of the params, and then formatInformationSchema once, with the type of
    the data source. *)
Theorem generateInformationSchema_formats datasource w integration w1 g f raw tree :
  getSourceIntegrationObject datasource w = (Ok integration, w1) →
  SourceIntegrationInterface.getInformationSchema integration = Some g →
  SourceIntegrationInterface.formatInformationSchema integration = Some f →
  g (projectId_of integration w1) = Ok raw →
  f raw (DataSourceInterface.type datasource) = Ok tree →
  ∃ w2,
    generateInformationSchema datasource w = (Ok (mkGenerated (Some tree) None), w2)
    ∧ driverCalls w2
      = driverCalls w
          ++ [CallGetInformationSchema (projectId_of integration w1);
              CallFormatInformationSchema (DataSourceInterface.type datasource)].
Proof.
  intros Hobj Hg Hf Hraw Htree. unfold generateInformationSchema.
  rewrite (bind_ok _ _ _ _ _ Hobj), Hg, Hf.
  apply getSourceIntegrationObject_frame in Hobj as (_ & _ & _ & _ & Hc).
  unfold try_catch, mbind, M_bind, get_prop, invoke, mret, M_ret.
  fold (projectId_of integration w1). rewrite Hraw, Htree.
  eexists. split; [reflexivity|]. cbn. by rewrite Hc, <- app_assoc.
Qed.

(** X6: with both test-query capabilities, the try of testQuery covers
    runTestQuery only.  What getTestQuery throws is thrown by testQuery, and
    runTestQuery is not called.  Once the SQL is built, testQuery calls
    runTestQuery once with it and returns the rows and the duration, or,
    with the SQL, the message of the Error runTestQuery threw; when what
    was thrown is a primitive the result has the SQL and no message, and
    when it is null or undefined testQuery throws the TypeError of reading
    the message.  The store is never written. *)
Theorem testQuery_supported datasource query w integration w1 build run :
  getSourceIntegrationObject datasource w = (Ok integration, w1) →
  SourceIntegrationInterface.getTestQuery integration = Some build →
  SourceIntegrationInterface.runTestQuery integration = Some run →
  ∃ w2,
    store w2 = store w
    ∧ match build query with
      | Throw t =>
          testQuery datasource query w = (Throw t, w2)
          ∧ driverCalls w2 = driverCalls w ++ [CallGetTestQuery query]
      | Ok sql =>
          testQuery datasource query w
          = (match run sql with
             | Ok r => Ok (mkTestQueryOutcome (Some (tq_results r))
                             (Some (tq_duration r)) None (Some sql))
             | Throw (AnError e) =>
                 Ok (mkTestQueryOutcome None None (Some (message e)) (Some sql))
             | Throw (AValue v) =>
                 if decide (v = VNull ∨ v = VUndefined)
                 then Throw (TypeError_reading "message" v)
                 else Ok (mkTestQueryOutcome None None None (Some sql))
             end, w2)
          ∧ driverCalls w2
            = driverCalls w ++ [CallGetTestQuery query; CallRunTestQuery sql]
      end.
Proof.
  intros Hobj Hb Hr. unfold testQuery.
  rewrite (bind_ok _ _ _ _ _ Hobj), Hb, Hr.
  apply getSourceIntegrationObject_frame in Hobj as (Hs & _ & _ & _ & Hc).
  unfold try_catch, mbind, M_bind, invoke, mret, M_ret.
  destruct (build query) as [sql|t]; cbn.
  - destruct (run sql) as [r|[e|[]]]; cbn;
      (eexists; split; [|split; [reflexivity|]]; cbn;
       [exact Hs | by rewrite Hc, <- app_assoc]).
  - eexists; split; [|split; [reflexivity|]]; cbn; [exact Hs | by rewrite Hc].
Qed.

(** X7: testDataSourceConnection returns when the driver's testConnection
    does and throws the very error it throws (nothing is caught here,
    unlike in testQuery); it calls the driver once and writes nothing to
    the store. *)
Theorem testDataSourceConnection_outcome datasource w integration w1 :
  getSourceIntegrationObject datasource w = (Ok integration, w1) →
  ∃ w2,
    testDataSourceConnection datasource w
    = (SourceIntegrationInterface.testConnection integration, w2)
    ∧ driverCalls w2 = driverCalls w ++ [CallTestConnection]
    ∧ store w2 = store w.
Proof.
  intros Hobj. unfold testDataSourceConnection.
  rewrite (bind_ok _ _ _ _ _ Hobj).
  apply getSourceIntegrationObject_frame in Hobj as (Hs & _ & _ & _ & Hc).
  eexists. split; [reflexivity|]. cbn. by rewrite Hc, Hs.
Qed.

(** *** Synchronization of any tree *)

Lemma stamps_in_le lo hi stamps : stamps_in lo hi stamps → (lo ≤ hi)%N.
Proof.
  revert lo. induction stamps as [|t stamps IH]; intros lo; cbn; [done|].
  intros [Hlt Hrest]. specialize (IH _ Hrest). lia.
Qed.

Lemma stamps_in_weaken lo lo' hi stamps :
  (lo' ≤ lo)%N → stamps_in lo hi stamps → stamps_in lo' hi stamps.
Proof. destruct stamps; cbn; [lia|]. intros ? [? ?]. split; [lia|done]. Qed.

Lemma stamps_in_app lo mid hi s1 s2 :
  stamps_in lo mid s1 → stamps_in mid hi s2 → stamps_in lo hi (s1 ++ s2).
Proof.
  revert lo. induction s1 as [|t s1 IH]; intros lo; cbn.
  - intros Hle. by apply stamps_in_weaken.
  - intros [Hlt H1] H2. split; [done|]. by apply IH.
Qed.

Lemma stamps_in_bounds lo hi stamps :
  stamps_in lo hi stamps → Forall (λ t, (lo < t ≤ hi)%N) stamps.
Proof.
  revert lo. induction stamps as [|t stamps IH]; intros lo; cbn; [constructor|].
  intros [Hlt Hrest]. constructor.
  - apply stamps_in_le in Hrest. lia.
  - eapply Forall_impl; [by apply IH|]. cbn. intros. lia.
Qed.

Lemma stamps_in_NoDup lo hi stamps : stamps_in lo hi stamps → NoDup stamps.
Proof.
  revert lo. induction stamps as [|t stamps IH]; intros lo; cbn; [constructor|].
  intros [Hlt Hrest]. constructor; [|by eapply IH].
  intros Hin. apply stamps_in_bounds in Hrest.
  rewrite Forall_forall in Hrest. specialize (Hrest _ Hin). lia.
Qed.

Lemma columns_id_of_inj : Inj (=) (=) columns_id_of.
Proof.
  intros a b H. unfold columns_id_of in H. apply (uniqid_inj "cols_"). congruence.
Qed.

Lemma columns_persisted_refl w : columns_persisted w w [].
Proof.
  unfold columns_persisted. cbn. rewrite !app_nil_r. split_and!; try done.
  exists []. cbn. split_and!; [done|lia|lia|constructor].
Qed.

Lemma columns_persisted_trans w1 w2 w3 d1 d2 :
  columns_persisted w1 w2 d1 → columns_persisted w2 w3 d2 →
  columns_persisted w1 w3 (d1 ++ d2).
Proof.
  intros (Hh1 & Hc1 & Hcols1 & Hs1 & Hd1 & Hj1 & st1 & Hid1 & Hst1 & Hck1 & Hge1)
         (Hh2 & Hc2 & Hcols2 & Hs2 & Hd2 & Hj2 & st2 & Hid2 & Hst2 & Hck2 & Hge2).
  unfold columns_persisted.
  rewrite Hh2, Hc2, Hcols2, Hs2, Hd2, Hj2, Hh1, Hc1, Hcols1, Hs1, Hd1, Hj1.
  rewrite length_app, replicate_add, !app_assoc.
  split_and!; try done.
  exists (st1 ++ st2). rewrite !fmap_app, Hid1, Hid2. split_and!; [done| |lia|].
  - by eapply stamps_in_app.
  - apply Forall_app. split; [done|].
    eapply Forall_impl; [exact Hge2|]. cbn. intros t (i & Hi & Ht).
    exists i. split; [lia|done].
Qed.

Lemma for_of_persists {A : Type} organization (tabs : A → list Table.t)
    (unl : A → A) (body : A → M A) :
  persists organization tabs unl body →
  persists organization (λ xs, concat (tabs <$> xs)) (fmap unl)
    (λ xs, for_of xs body).
Proof.
  intros Hbody xs. induction xs as [|x xs IH]; intros w.
  - exists [], w, []. cbn.
    split_and!; first [done | apply columns_persisted_refl | constructor].
  - destruct (Hbody x w) as (x' & w1 & d1 & Hrun1 & Hunl1 & Hlen1 & Hp1 & Hl1).
    destruct (IH w1) as (xs' & w2 & d2 & Hrun2 & Hunl2 & Hlen2 & Hp2 & Hl2).
    exists (x' :: xs'), w2, (d1 ++ d2). split_and!.
    + cbn [for_of]. erewrite bind_ok by exact Hrun1.
      by erewrite bind_ok by exact Hrun2.
    + cbn. by rewrite Hunl1, Hunl2.
    + cbn. rewrite !length_app. by rewrite Hlen1, Hlen2.
    + by eapply columns_persisted_trans.
    + cbn. by apply Forall2_app.
Qed.

Lemma concat_singletons {A : Type} (l : list A) : concat ((λ x, [x]) <$> l) = l.
Proof. induction l as [|x l IH]; [done|]. cbn. by rewrite IH. Qed.

Lemma persists_tables organization :
  persists organization (λ t, [t]) unlinked_table
    (λ table,
       column ← createInformationSchemaColumns (Table.columns table) organization;
       mret (Table.set_columns_id (doc_id column) table)).
Proof.
  intros table w.
  destruct (stored_columns_document_interface (Table.columns table) organization w)
    as (Hid & _).
  eexists _, _, [stored_columns_document (Table.columns table) organization w].
  split; [|split_and!].
  - erewrite bind_ok by apply createInformationSchemaColumns_run. reflexivity.
  - by destruct table.
  - done.
  - unfold columns_persisted. cbn. split_and!; try done.
    exists [next_stamp (Date_now (clockReads w)) (uniqLast w)]. cbn.
    split_and!; [done|apply next_stamp_gt|lia|lia|].
    constructor; [|constructor]. exists (clockReads w).
    split; [lia|apply next_stamp_ge].
  - constructor; [|constructor]. unfold linked, doc_id. rewrite Hid. cbn.
    split_and!; [done|done| |done].
    eexists. split; [reflexivity|]. apply cast_columns_columns.
Qed.

Lemma persists_schemas organization :
  persists organization Schema.tables unlinked_schema
    (λ schema,
       tables ←
         for_of (Schema.tables schema) (λ table,
           column ← createInformationSchemaColumns
                      (Table.columns table) organization;
           mret (Table.set_columns_id (doc_id column) table));
       mret (Schema.set_tables tables schema)).
Proof.
  intros schema w.
  destruct (for_of_persists _ _ _ _ (persists_tables organization)
              (Schema.tables schema) w)
    as (tables & w' & docs & Hrun & Hunl & Hlen & Hp & Hl).
  rewrite !concat_singletons in *.
  exists (Schema.set_tables tables schema), w', docs. split_and!; try done.
  - by erewrite bind_ok by exact Hrun.
  - unfold unlinked_schema. cbn. by rewrite Hunl.
Qed.

Lemma persists_databases organization :
  persists organization
    (λ database, concat (Schema.tables <$> InformationSchema.schemas database))
    unlinked
    (λ database,
       schemas ←
         for_of (InformationSchema.schemas database) (λ schema,
           tables ←
             for_of (Schema.tables schema) (λ table,
               column ← createInformationSchemaColumns
                          (Table.columns table) organization;
               mret (Table.set_columns_id (doc_id column) table));
           mret (Schema.set_tables tables schema));
       mret (InformationSchema.set_schemas schemas database)).
Proof.
  intros database w.
  destruct (for_of_persists _ _ _ _ (persists_schemas organization)
              (InformationSchema.schemas database) w)
    as (schemas & w' & docs & Hrun & Hunl & Hlen & Hp & Hl).
  exists (InformationSchema.set_schemas schemas database), w', docs.
  split_and!; try done.
  - by erewrite bind_ok by exact Hrun.
  - unfold unlinked. cbn. by rewrite Hunl.
Qed.

(** The run of createInitialInformationSchema once discovery has produced a
    tree. *)
Lemma createInitialInformationSchema_persisted datasource organization w w2 tree err :
  generateInformationSchema datasource w = (Ok (mkGenerated (Some tree) err), w2) →
  ∃ w3 w' tree' docs schemaId,
    createInitialInformationSchema datasource organization w = (Ok tt, w')
    ∧ unlinked <$> tree' = unlinked <$> tree
    ∧ length (all_tables tree') = length (all_tables tree)
    ∧ columns_persisted w2 w3 docs
    ∧ Forall2 (linked organization) (all_tables tree') docs
    ∧ (uniqLast w3 < uniqLast w')%N
    ∧ (clockReads w3 ≤ clockReads w')%nat
    ∧ informationSchemaColumns (store w') = informationSchemaColumns (store w3)
    ∧ informationSchemas (store w')
      = informationSchemas (store w3)
          ++ [mkInformationSchemaInterface schemaId organization tree']
    ∧ dataSources (store w')
      = apply_update (DataSourceInterface.id datasource) organization
          (backlink datasource schemaId) <$> dataSources (store w3)
    ∧ journal (store w')
      = journal (store w3) ++ [OpCreateInformationSchema; OpUpdateDataSource].
Proof.
  intros Hgen.
  destruct (for_of_persists _ _ _ _ (persists_databases organization) tree w2)
    as (tree' & w3 & docs & Hrun & Hunl & Hlen & Hp & Hl).
  exists w3. eexists _, tree', docs, _. split; [|split_and!; try eassumption].
  - unfold createInitialInformationSchema.
    rewrite (bind_ok _ _ _ _ _ Hgen). cbn [informationSchema].
    erewrite bind_ok by exact Hrun.
    erewrite bind_ok by apply createInformationSchema_run.
    cbn [truthy String.append String.eqb negb]. reflexivity.
  - cbn. apply next_stamp_gt.
  - cbn. lia.
  - done.
  - done.
  - done.
  - cbn. by rewrite <- app_assoc.
Qed.

(** X8: whatever tree the driver returns, the synchronization creates one
    columns document per table, in tree order, each holding the columns of
    its table and owned by the organization, no two under the same id; the
    tree it then stores as one InformationSchema document is the tree of
    the driver with every table pointing to its document; and last it sends
    the update that points the data source to that document. *)
Theorem synchronization_links_every_table datasource organization w integration w1
    g f raw tree :
  getSourceIntegrationObject datasource w = (Ok integration, w1) →
  SourceIntegrationInterface.getInformationSchema integration = Some g →
  SourceIntegrationInterface.formatInformationSchema integration = Some f →
  g (projectId_of integration w1) = Ok raw →
  f raw (DataSourceInterface.type datasource) = Ok tree →
  ∃ w' tree' docs schemaId,
    createInitialInformationSchema datasource organization w = (Ok tt, w')
    ∧ unlinked <$> tree' = unlinked <$> tree
    ∧ informationSchemaColumns (store w') = informationSchemaColumns (store w) ++ docs
    ∧ length docs = length (all_tables tree)
    ∧ Forall2 (linked organization) (all_tables tree') docs
    ∧ NoDup ((λ d : gmap string Field, d !! "id") <$> docs)
    ∧ informationSchemas (store w')
      = informationSchemas (store w)
          ++ [mkInformationSchemaInterface schemaId organization tree']
    ∧ dataSources (store w')
      = apply_update (DataSourceInterface.id datasource) organization
          (backlink datasource schemaId) <$> dataSources (store w)
    ∧ journal (store w')
      = journal (store w)
          ++ replicate (length docs) OpCreateInformationSchemaColumns
          ++ [OpCreateInformationSchema; OpUpdateDataSource].
Proof.
  intros Hobj Hg Hf Hraw Htree.
  destruct (generateInformationSchema_formatted _ _ _ _ _ _ _ _ Hobj Hg Hf Hraw Htree)
    as (w2 & Hgen & Hs & _).
  destruct (createInitialInformationSchema_persisted datasource organization _ _ _ _ Hgen)
    as (w3 & w' & tree' & docs & schemaId & Hrun & Hunl & Hlen
        & (_ & _ & Hcols & Hschemas & Hsources & Hjournal & stamps & Hids & Hstamps & _)
        & Hlinked & _ & _ & Hcols' & Hschemas' & Hsources' & Hjournal').
  exists w', tree', docs, schemaId. split_and!; try done.
  - by rewrite Hcols', Hcols, Hs.
  - apply Forall2_length in Hlinked. by rewrite <- Hlinked.
  - rewrite Hids. pose proof columns_id_of_inj as Hinj.
    apply (NoDup_fmap_2 _). by eapply stamps_in_NoDup.
  - by rewrite Hschemas', Hschemas, Hs.
  - by rewrite Hsources', Hsources, Hs.
  - by rewrite Hjournal', Hjournal, Hs, <- app_assoc.
Qed.

(** *** Ids of columns documents *)









(** *** Redaction and merge together *)

Lemma redact_falsy keys (o : gmap string value) k :
  k ∈ keys → truthy (prop (redact keys o) k) = false.
Proof.
  intros Hk. unfold prop at 1. rewrite redact_lookup.
  rewrite bool_decide_eq_true_2 by done. cbn.
  by destruct (truthy (prop o k)) eqn:Ht.
Qed.

Lemma redact_own keys (o : gmap string value) k :
  is_Some (redact keys o !! k) → is_Some (o !! k).
Proof.
  rewrite redact_lookup.
  destruct (bool_decide (k ∈ keys) && truthy (prop o k)) eqn:H; [|done].
  intros _. apply andb_true_iff in H as [_ Ht]. by apply truthy_own.
Qed.

Lemma pair_eq {A B : Type} (x y : A * B) : x.1 = y.1 → x.2 = y.2 → x = y.
Proof. destruct x, y. cbn. by intros -> ->. Qed.

Lemma merged_redacted keys (o : gmap string value) b :
  merged keys (map_to_list (redact keys o)).*1 (redact keys o) (o, b) = (o, b).
Proof.
  pose proof (NoDup_fst_map_to_list (redact keys o)) as Hnd.
  apply pair_eq.
  - apply map_eq. intros k. rewrite merged_lookup by done. cbn [fst].
    destruct (stores _ _ _ _ _) eqn:Hst; [|done].
    apply stores_update in Hst as ([v Hv] & Hcase & _).
    destruct Hcase as [Hns|Ht].
    + unfold prop. rewrite Hv. cbn. rewrite <- Hv, redact_lookup.
      by rewrite bool_decide_eq_false_2.
    + destruct (decide (k ∈ keys)) as [Hk|Hk].
      * by rewrite redact_falsy in Ht.
      * unfold prop. rewrite Hv. cbn. rewrite <- Hv, redact_lookup.
        by rewrite bool_decide_eq_false_2.
  - rewrite merged_flag by done. cbn [snd].
    destruct (drops_prototype _ _ _ _) eqn:Hd; [|by rewrite orb_false_r].
    apply drops_prototype_update in Hd as (Hv & _ & Hnone & _). cbn in Hnone.
    assert (Hown : is_Some (o !! "__proto__")) by (apply (redact_own keys); eauto).
    destruct Hown as [? ?]. congruence.
Qed.

(** X10: what getNonSensitiveParams returns can be handed back to
    mergeParams without harm: merging the redacted copy into the driver
    leaves the stored params exactly as they were, secrets included. *)
Theorem merge_of_redacted_copy_keeps_params integration w stored :
  heap w !! SourceIntegrationInterface.params integration = Some stored →
  ∃ ret w1 w2,
    getNonSensitiveParams integration w = (Ok ret, w1)
    ∧ mergeParams integration ret w1 = (Ok tt, w2)
    ∧ heap w2 !! SourceIntegrationInterface.params integration = Some stored
    ∧ heap w2 = heap w1.
Proof.
  intros Hp.
  destruct (getNonSensitiveParams_run integration w stored Hp)
    as (w1 & Hrun1 & Hh1 & _).
  assert (Hfresh : heap w !! fresh (dom (heap w)) = None).
  { apply not_elem_of_dom, is_fresh. }
  assert (Hp1 : heap w1 !! SourceIntegrationInterface.params integration = Some stored).
  { rewrite Hh1, lookup_insert_ne; [done|]. intros Heq. congruence. }
  destruct (mergeParams_run integration (fresh (dom (heap w))) w1 stored
              (redact (SourceIntegrationInterface.getSensitiveParamKeys integration)
                 stored) Hp1)
    as (w2 & Hrun2 & Hh2 & _).
  { rewrite Hh1. apply lookup_insert_eq. }
  unfold after_merge in Hh2. rewrite merged_redacted in Hh2. cbn [fst] in Hh2.
  exists (fresh (dom (heap w))), w1, w2. split_and!; try done.
  - rewrite Hh2. apply lookup_insert_eq.
  - rewrite Hh2. by apply insert_id.
Qed.

(** X11: no update can blank a stored secret: a sensitive key that holds a
    non-empty value before mergeParams holds a non-empty value after it,
    whatever the update carries. *)
Theorem mergeParams_never_blanks_secret integration newParams w stored update k :
  heap w !! SourceIntegrationInterface.params integration = Some stored →
  heap w !! newParams = Some update →
  k ∈ SourceIntegrationInterface.getSensitiveParamKeys integration →
  truthy (prop stored k) = true →
  ∃ w' result,
    mergeParams integration newParams w = (Ok tt, w')
    ∧ heap w' !! SourceIntegrationInterface.params integration = Some result
    ∧ truthy (prop result k) = true.
Proof.
  intros Hp Hu Hk Hsecret.
  destruct (mergeParams_run integration newParams w stored update Hp Hu)
    as (w' & Hrun & Hh & _).
  eexists w', _. split_and!; [done|rewrite Hh; apply lookup_insert_eq|].
  unfold prop at 1, after_merge.
  rewrite merged_lookup by apply NoDup_fst_map_to_list. cbn [fst].
  destruct (stores _ _ _ _ _) eqn:Hst; [|exact Hsecret].
  by apply stores_update in Hst as (_ & [Hns|Ht] & _).
Qed.

Lemma stores_merged keys (update : gmap string value) s k :
  let ks := (map_to_list update).*1 in
  (merged keys ks update s).2 = s.2 →
  stores keys ks update (merged keys ks update s) k = stores keys ks update s k.
Proof.
  intros ks Hflag. unfold stores. f_equal.
  destruct (decide (k = "__proto__")) as [->|Hne];
    [|by rewrite !reaches_setter_other].
  unfold reaches_setter at 1. rewrite Hflag.
  rewrite merged_lookup by apply NoDup_fst_map_to_list. fold ks.
  destruct (stores keys ks update s "__proto__") eqn:Hst; [|done].
  apply stores_update in Hst as (_ & _ & [?|[Hown|Hb]]); [done| |].
  - rewrite (reaches_setter_own _ _ _ Hown).
    rewrite bool_decide_eq_false_2 by done. by rewrite andb_false_r.
  - unfold reaches_setter. rewrite Hb. cbn [negb]. by rewrite !andb_false_r.
Qed.

Lemma merged_twice keys (update : gmap string value) s :
  update !! "__proto__" ≠ Some VNull →
  merged keys (map_to_list update).*1 update
    (merged keys (map_to_list update).*1 update s)
  = merged keys (map_to_list update).*1 update s
  ∧ (merged keys (map_to_list update).*1 update s).2 = s.2.
Proof.
  intros Hnonull.
  pose proof (NoDup_fst_map_to_list update) as Hnd.
  assert (Hkeep : ∀ s', (merged keys (map_to_list update).*1 update s').2 = s'.2).
  { intros s'. rewrite merged_flag by done.
    destruct (drops_prototype _ _ _ _) eqn:Hd; [|by rewrite orb_false_r].
    by apply drops_prototype_update in Hd as (? & _). }
  split; [|apply Hkeep]. apply pair_eq; [|apply Hkeep].
  apply map_eq. intros k. rewrite merged_lookup by done.
  rewrite stores_merged by apply Hkeep.
  destruct (stores _ _ _ s k) eqn:Hst; [|done].
  by rewrite merged_lookup, Hst by done.
Qed.

Lemma merged_self keys (o : gmap string value) b :
  merged keys (map_to_list o).*1 o (o, b) = (o, b).
Proof.
  pose proof (NoDup_fst_map_to_list o) as Hnd.
  apply pair_eq.
  - apply map_eq. intros k. rewrite merged_lookup by done. cbn [fst].
    destruct (stores _ _ _ _ _) eqn:Hst; [|done].
    apply stores_update in Hst as ([v Hv] & _). unfold prop. by rewrite Hv.
  - rewrite merged_flag by done. cbn [snd].
    destruct (drops_prototype _ _ _ _) eqn:Hd; [|by rewrite orb_false_r].
    apply drops_prototype_update in Hd as (Hv & _ & Hnone & _). cbn in Hnone.
    congruence.
Qed.

Lemma null_prototype_flag (l : positive) (s : gset positive) :
  (if bool_decide (l ∈ s) then {[l]} ∪ s else s) = s.
Proof.
  destruct (bool_decide_reflect (l ∈ s)); [|done]. by apply null_prototype_again.
Qed.

(** X12: mergeParams is idempotent: applying the same update a second time
    changes nothing, also when the update is the params object itself,
    unless the update owns a key __proto__ whose value is null: the first
    merge then takes the prototype off the params, and the second stores
    the key on them. *)
Theorem mergeParams_idempotent integration newParams w stored update :
  heap w !! SourceIntegrationInterface.params integration = Some stored →
  heap w !! newParams = Some update →
  update !! "__proto__" ≠ Some VNull →
  ∃ w1 w2,
    mergeParams integration newParams w = (Ok tt, w1)
    ∧ mergeParams integration newParams w1 = (Ok tt, w2)
    ∧ heap w2 = heap w1
    ∧ nullPrototype w2 = nullPrototype w1.
Proof.
  intros Hp Hu Hnonull.
  destruct (mergeParams_run integration newParams w stored update Hp Hu)
    as (w1 & Hrun1 & Hh1 & Hn1 & _).
  destruct (merged_twice (SourceIntegrationInterface.getSensitiveParamKeys integration)
              update
              (stored,
               bool_decide (SourceIntegrationInterface.params integration
                              ∈ nullPrototype w)) Hnonull)
    as [Htwice Hflag].
  fold (after_merge integration update stored w) in Htwice, Hflag.
  cbn [snd] in Hflag. rewrite Hflag, null_prototype_flag in Hn1.
  assert (Hp1 : heap w1 !! SourceIntegrationInterface.params integration
                = Some (after_merge integration update stored w).1).
  { rewrite Hh1. apply lookup_insert_eq. }
  assert (Hsame : ∀ u,
            after_merge integration u (after_merge integration update stored w).1 w1
            = merged (SourceIntegrationInterface.getSensitiveParamKeys integration)
                (map_to_list u).*1 u (after_merge integration update stored w)).
  { intros u. unfold after_merge at 1. rewrite Hn1. f_equal.
    apply pair_eq; [done|]. by rewrite Hflag. }
  destruct (decide (newParams = SourceIntegrationInterface.params integration))
    as [->|Hne].
  - assert (update = stored) as -> by congruence.
    assert (Hself : after_merge integration stored stored w
                    = (stored,
                       bool_decide (SourceIntegrationInterface.params integration
                                      ∈ nullPrototype w))).
    { apply merged_self. }
    rewrite Hself in Hp1, Hh1, Hsame. cbn [fst] in Hp1, Hh1, Hsame.
    destruct (mergeParams_run integration _ w1 stored stored Hp1 Hp1)
      as (w2 & Hrun2 & Hh2 & Hn2 & _).
    rewrite Hsame, merged_self in Hh2, Hn2. cbn [fst snd] in Hh2, Hn2.
    exists w1, w2. split_and!; try done.
    + rewrite Hh2. by apply insert_id.
    + rewrite Hn2, <- Hn1. apply null_prototype_flag.
  - destruct (mergeParams_run integration newParams w1
                (after_merge integration update stored w).1 update Hp1)
      as (w2 & Hrun2 & Hh2 & Hn2 & _).
    { by rewrite Hh1, lookup_insert_ne. }
    rewrite Hsame, Htwice in Hh2, Hn2.
    exists w1, w2. split_and!; try done.
    + rewrite Hh2. by apply insert_id.
    + rewrite Hn2, Hflag, <- Hn1. apply null_prototype_flag.
Qed.

(** *** The codec on any object *)

Lemma print_members_filter (l : list (string * value)) :
  JSON.print_members (filter defined l) = JSON.print_members l.
Proof.
  induction l as [|[k v] l IH]; [done|].
  destruct (decide (defined (k, v))) as [Hd|Hd].
  - rewrite filter_cons_True by done. cbn [JSON.print_members]. by rewrite IH.
  - rewrite filter_cons_False by done. cbn [JSON.print_members]. rewrite IH.
    unfold defined in Hd. cbn in Hd. apply dec_stable in Hd. by rewrite Hd.
Qed.

(** JSON.parse after JSON.stringify gives the object without the
    properties whose value is undefined. *)
Lemma parse_stringify_any (o : gmap string value) :
  JSON.parse (JSON.stringify o) = Some (filter defined o).
Proof.
  unfold JSON.parse, JSON.stringify.
  rewrite <- print_members_filter, parse_object_print.
  - cbn [JSON.skip_ws]. f_equal.
    rewrite foldl_insert_list_to_map.
    + by rewrite (right_id ∅ (∪)), <- map_filter_alt.
    + apply (sublist_NoDup _ (map_to_list o).*1).
      * apply NoDup_fst_map_to_list.
      * apply fmap_sublist, sublist_filter.
  - apply Forall_forall. by intros kv [Hd _]%list_elem_of_filter.
Qed.

(** *** A synchronization without a schema *)

(** X15: the synchronization writes only when discovery returned a schema.
    When generateInformationSchema throws, createInitialInformationSchema
    throws the same value; when it returns without a schema,
    createInitialInformationSchema returns; either way it ends in the world
    discovery left, and there the store is as it was before the call. *)
Theorem synchronization_without_schema datasource organization w :
  match generateInformationSchema datasource w with
  | (Throw t, w2) =>
      createInitialInformationSchema datasource organization w = (Throw t, w2)
      ∧ store w2 = store w
  | (Ok generated, w2) =>
      informationSchema generated = None →
      createInitialInformationSchema datasource organization w = (Ok tt, w2)
      ∧ store w2 = store w
  end.
Proof.
  pose proof (generateInformationSchema_frame datasource w) as (Hs & _).
  destruct (generateInformationSchema datasource w) as [[generated|t] w2] eqn:Hgen;
    cbn [snd] in Hs.
  - intros Hnone. split; [|done]. unfold createInitialInformationSchema.
    rewrite (bind_ok _ _ _ _ _ Hgen). by rewrite Hnone.
  - split; [|done]. unfold createInitialInformationSchema. by apply bind_throw.
Qed.

(** X16: the redacted copy is a snapshot: a later mergeParams on the driver
    changes the params of the driver only, and the copy handed out before
    still reads as it did. *)
Theorem redacted_copy_is_a_snapshot integration newParams w stored update :
  heap w !! SourceIntegrationInterface.params integration = Some stored →
  heap w !! newParams = Some update →
  ∃ ret copy w1 w2,
    getNonSensitiveParams integration w = (Ok ret, w1)
    ∧ heap w1 !! ret = Some copy
    ∧ mergeParams integration newParams w1 = (Ok tt, w2)
    ∧ heap w2 !! ret = Some copy
    ∧ ret ≠ SourceIntegrationInterface.params integration
    ∧ ret ≠ newParams.
Proof.
  intros Hp Hu.
  destruct (getNonSensitiveParams_run integration w stored Hp)
    as (w1 & Hrun1 & Hh1 & _).
  assert (Hfresh : heap w !! fresh (dom (heap w)) = None).
  { apply not_elem_of_dom, is_fresh. }
  assert (Hne : fresh (dom (heap w)) ≠ SourceIntegrationInterface.params integration).
  { intros Heq. congruence. }
  assert (Hne' : fresh (dom (heap w)) ≠ newParams).
  { intros Heq. congruence. }
  destruct (mergeParams_run integration newParams w1 stored update)
    as (w2 & Hrun2 & Hh2 & _).
  { by rewrite Hh1, lookup_insert_ne. }
  { by rewrite Hh1, lookup_insert_ne. }
  eexists (fresh (dom (heap w))), _, w1, w2. split_and!; try done.
  - rewrite Hh1. apply lookup_insert_eq.
  - rewrite Hh2, lookup_insert_ne by done. rewrite Hh1. apply lookup_insert_eq.
Qed.

(** X17: createInformationSchemaColumns makes one write: the columns
    collection grows by the one document stored, which is the returned
    object together with the _id and the __v the store added; one ObjectId
    is drawn for the document and one for each of its columns; the other
    collections, the heap and the driver-call trace are as they were. *)
Theorem createInformationSchemaColumns_stores_one columns organization w :
  ∃ doc stored w',
    createInformationSchemaColumns columns organization w = (Ok doc, w')
    ∧ informationSchemaColumns (store w') = informationSchemaColumns (store w) ++ [stored]
    ∧ (∀ k, doc !! k = if decide (k = "__v" ∨ k = "_id") then None else stored !! k)
    ∧ stored !! "__v" = Some (FNumber 0)
    ∧ stored !! "_id" = Some (FObjectId (objectIds w))
    ∧ objectIds w' = (objectIds w + 1 + N.of_nat (length columns))%N
    ∧ informationSchemas (store w') = informationSchemas (store w)
    ∧ dataSources (store w') = dataSources (store w)
    ∧ journal (store w') = journal (store w) ++ [OpCreateInformationSchemaColumns]
    ∧ heap w' = heap w ∧ driverCalls w' = driverCalls w.
Proof.
  eexists _, (stored_columns_document columns organization w), _.
  split; [apply createInformationSchemaColumns_run|]. cbn.
  split_and!; try done. apply toInterface_lookup.
Qed.

Section Codec.

(** The contract of the cipher: decrypting with the passphrase a text was
    encrypted with gives the text back, whatever salt was drawn. *)
Hypothesis AES_decrypt_encrypt : ∀ salt message passphrase,
  AES_decrypt (AES_encrypt salt message passphrase) passphrase = Some message.

(** C1: decrypting the result of encrypting a parameter structure, with the
    same key, returns the structure, for every structure JSON can carry
    (no value is undefined) and every salt. *)
Theorem decrypt_encrypt_params (salt : string) (params : gmap string value) :
  (∀ k v, params !! k = Some v → v ≠ VUndefined) →
  decryptDataSourceParams (encryptParams salt params) = Some params.
Proof using AES_decrypt_encrypt.
  intros Hdef. unfold decryptDataSourceParams, encryptParams.
  rewrite AES_decrypt_encrypt. cbn. by apply parse_stringify.
Qed.

Lemma decrypt_encrypt_any (salt : string) (params : gmap string value) :
  decryptDataSourceParams (encryptParams salt params) = Some (filter defined params).
Proof using AES_decrypt_encrypt.
  unfold decryptDataSourceParams, encryptParams.
  rewrite AES_decrypt_encrypt. cbn. apply parse_stringify_any.
Qed.

(** X13: on any parameter object the round trip through the codec returns
    the object without the properties whose value is undefined, and
    nothing else is lost or changed: those properties have no JSON text. *)
Theorem decrypt_encrypt_drops_undefined (salt : string) (params : gmap string value) :
  decryptDataSourceParams (encryptParams salt params)
  = Some (filter (λ kv : string * value, kv.2 ≠ VUndefined) params).
Proof using AES_decrypt_encrypt. apply decrypt_encrypt_any. Qed.

(** X14: the ciphertext determines the parameters: two objects that
    encrypt to the same text, under whatever salts, have the same defined
    properties. *)
Theorem encryptParams_injective (salt salt' : string) (p q : gmap string value) :
  encryptParams salt p = encryptParams salt' q →
  filter (λ kv : string * value, kv.2 ≠ VUndefined) p
  = filter (λ kv : string * value, kv.2 ≠ VUndefined) q.
Proof using AES_decrypt_encrypt.
  intros Heq. apply (f_equal decryptDataSourceParams) in Heq.
  rewrite !decrypt_encrypt_any in Heq. by injection Heq.
Qed.

End Codec.

End Services.

(** ** The theorems at the sample inputs *)

Lemma decrypt_encrypt_params_witness :
  (∀ salt message passphrase,
     Samples.toy_decrypt (Samples.toy_encrypt salt message passphrase) passphrase
     = Some message)
  ∧ decryptDataSourceParams "k3y" Samples.toy_decrypt
      (encryptParams "k3y" Samples.toy_encrypt "salt" Samples.pg_params)
    = Some Samples.pg_params.
Proof.
  assert (Hcipher : ∀ salt message passphrase,
            Samples.toy_decrypt (Samples.toy_encrypt salt message passphrase)
              passphrase = Some message).
  { intros salt message passphrase. apply expect_append. }
  split; [exact Hcipher|].
  apply (decrypt_encrypt_params "k3y" Samples.toy_encrypt Samples.toy_decrypt Hcipher).
  apply (bool_decide_unpack
           (map_Forall (λ _ v, v ≠ VUndefined) Samples.pg_params)).
  vm_compute. exact I.
Defined.

Lemma getNonSensitiveParams_redacts_witness :
  heap Samples.pg_world !! SourceIntegrationInterface.params Samples.pg_integration
  = Some Samples.pg_params
  ∧ ∃ ret copy w',
      getNonSensitiveParams Samples.pg_integration Samples.pg_world = (Ok ret, w')
      ∧ heap w' !! ret = Some copy
      ∧ copy !! "password" = Some (VStr EmptyString)
      ∧ copy !! "user" = Some (VStr "a")
      ∧ heap w' !! 1%positive = Some Samples.pg_params.
Proof.
  split; [reflexivity|].
  destruct (getNonSensitiveParams_redacts Samples.pg_integration Samples.pg_world
              Samples.pg_params eq_refl)
    as (ret & copy & w' & Hrun & Hfresh & Hh & Hp & Hs & Hn & _).
  exists ret, copy, w'. split; [exact Hrun|]. split.
  { rewrite Hh. apply lookup_insert_eq. }
  split.
  { destruct (Hs "password") as [_ ->]; [constructor|reflexivity]. }
  split; [|exact Hp].
  rewrite Hn; [reflexivity|].
  intros Hin. apply list_elem_of_In in Hin. cbn in Hin. destruct Hin as [[=]|[]].
Defined.

Lemma mergeParams_preserves_secrets_witness :
  (∃ w', mergeParams Samples.login_integration 2 Samples.login_world = (Ok tt, w')
         ∧ heap w' !! 1%positive = Some Samples.login_params)
  ∧ (∃ w', mergeParams Samples.login_integration 3 Samples.login_world = (Ok tt, w')
           ∧ heap w' !! 1%positive
             = Some (<["user" := VStr "a"]> (<["pass" := VStr "new"]> ∅))).
Proof.
  split.
  - destruct (mergeParams_preserves_secrets Samples.login_integration 2
                Samples.login_world Samples.login_params
                (<["pass" := VStr EmptyString]> ∅) eq_refl eq_refl)
      as (w' & result & Hrun & Hh & _ & _ & _ & _ & _ & _ & _ & Hexample).
    exists w'. split; [exact Hrun|].
    rewrite Hh, lookup_insert_eq. f_equal.
    by apply (Hexample eq_refl eq_refl).
  - destruct (mergeParams_preserves_secrets Samples.login_integration 3
                Samples.login_world Samples.login_params
                (<["pass" := VStr "new"]> ∅) eq_refl eq_refl)
      as (w' & result & Hrun & Hh & _ & _ & _ & _ & _ & _ & _ & Hexample).
    exists w'. split; [exact Hrun|].
    rewrite Hh, lookup_insert_eq. f_equal.
    by apply (Hexample eq_refl eq_refl).
Defined.

(** C3, as stated, fails: the update held at reference 4 is what JSON.parse
    makes of a text with the one member __proto__; the key is not
    sensitive, yet mergeParams does not write it: the params do not own it,
    so the assignment goes to the __proto__ setter, and the params are as
    they were, without that key. *)
Lemma mergeParams_drops_proto_key :
  heap Samples.login_world !! 4%positive = Some (<["__proto__" := VStr "x"]> ∅)
  ∧ JSON.parse (JSON.stringify (<["__proto__" := VStr "x"]> ∅))
    = Some (<["__proto__" := VStr "x"]> ∅)
  ∧ ("__proto__"
       ∉ SourceIntegrationInterface.getSensitiveParamKeys Samples.login_integration)
  ∧ ∃ w' result,
      mergeParams Samples.login_integration 4 Samples.login_world = (Ok tt, w')
      ∧ heap w' !! 1%positive = Some result
      ∧ result !! "__proto__" = None
      ∧ result = Samples.login_params.
Proof.
  split; [reflexivity|]. split; [vm_compute; reflexivity|]. split.
  { apply (bool_decide_unpack _). vm_compute. exact I. }
  eexists _, _. split; [vm_compute; reflexivity|].
  split; [vm_compute; reflexivity|]. split; vm_compute; reflexivity.
Qed.

Lemma sample_mixpanel_built :
  getSourceIntegrationObject Samples.integrations Samples.mixpanel_source Samples.world0
  = (Ok Samples.mixpanel_integration, Samples.mixpanel_world).
Proof. vm_compute. reflexivity. Qed.

Lemma sample_athena_built :
  getSourceIntegrationObject Samples.integrations Samples.athena_source Samples.world0
  = (Ok Samples.athena_integration, Samples.athena_world).
Proof. vm_compute. reflexivity. Qed.

Lemma sample_clickhouse_built :
  getSourceIntegrationObject Samples.integrations Samples.clickhouse_source
    Samples.world0
  = (Ok Samples.clickhouse_integration, Samples.clickhouse_world).
Proof. vm_compute. reflexivity. Qed.

Lemma sample_pg_built :
  getSourceIntegrationObject Samples.integrations Samples.pg_source Samples.world0
  = (Ok Samples.pg_integration, Samples.pg_world).
Proof. vm_compute. reflexivity. Qed.

Lemma generateInformationSchema_unsupported_witness :
  ∃ generated,
    generateInformationSchema Samples.integrations Samples.mixpanel_source Samples.world0
    = (Ok generated, Samples.mixpanel_world)
    ∧ informationSchema generated = Some []
    ∧ error generated = None
    ∧ store Samples.mixpanel_world = store Samples.world0
    ∧ driverCalls Samples.mixpanel_world = driverCalls Samples.world0.
Proof.
  apply (generateInformationSchema_unsupported Samples.integrations
           Samples.mixpanel_source Samples.world0 Samples.mixpanel_integration
           Samples.mixpanel_world).
  - exact sample_mixpanel_built.
  - left. reflexivity.
Defined.

Lemma failure_isolation_witness :
  fst (generateInformationSchema Samples.integrations Samples.athena_source Samples.world0)
  = Ok (mkGenerated None (Some "Access denied"))
  ∧ fst (createInitialInformationSchema Samples.integrations Samples.Date_now
           Samples.machine Samples.athena_source "org_1" Samples.world0) = Ok tt
  ∧ store (snd (createInitialInformationSchema Samples.integrations Samples.Date_now
                  Samples.machine Samples.athena_source "org_1" Samples.world0))
    = store Samples.world0.
Proof.
  apply (failure_isolation Samples.integrations Samples.Date_now Samples.machine
           Samples.athena_source "org_1" Samples.world0 Samples.athena_integration
           Samples.athena_world
           (λ _, Throw (mkError "Access denied")) (λ _ _, Ok [])
           (mkError "Access denied")).
  - exact sample_athena_built.
  - reflexivity.
  - reflexivity.
  - left. reflexivity.
Defined.

(** C6, as stated, fails: the driver of the sample event-analytics source
    lacks getInformationSchema, and its synchronization writes to the store
    twice, an InformationSchema document with the empty tree and the update
    of the data source that points to it. *)
Lemma createInitialInformationSchema_unsupported_writes :
  SourceIntegrationInterface.getInformationSchema Samples.mixpanel_integration = None
  ∧ getSourceIntegrationObject Samples.integrations Samples.mixpanel_source Samples.world0
    = (Ok Samples.mixpanel_integration, Samples.mixpanel_world)
  ∧ ∃ w',
      createInitialInformationSchema Samples.integrations Samples.Date_now
        Samples.machine Samples.mixpanel_source "org_1" Samples.world0
      = (Ok tt, w')
      ∧ journal (store w') = [OpCreateInformationSchema; OpUpdateDataSource]
      ∧ informationSchemas (store w')
        = [mkInformationSchemaInterface "inf_4n5pxq24klckd05q9" "org_1" []]
      ∧ dataSources (store w') !! 1%nat
        = Some (DataSourceInterface.set_settings
                  (Some (<["informationSchemaId" :=
                             SValue (VStr "inf_4n5pxq24klckd05q9")]> ∅))
                  Samples.mixpanel_source)
      ∧ store w' ≠ store Samples.world0.
Proof.
  split; [reflexivity|]. split; [exact sample_mixpanel_built|].
  eexists. split; [vm_compute; reflexivity|].
  split; [reflexivity|]. split; [reflexivity|]. split; [vm_compute; reflexivity|].
  intros H. apply (f_equal journal) in H. discriminate H.
Qed.

Lemma createInitialInformationSchema_unsupported_witness :
  ∃ w' schemaId,
    createInitialInformationSchema Samples.integrations Samples.Date_now
      Samples.machine Samples.mixpanel_source "org_1" Samples.world0
    = (Ok tt, w')
    ∧ informationSchemaColumns (store w') = []
    ∧ informationSchemas (store w')
      = [mkInformationSchemaInterface schemaId "org_1" []]
    ∧ journal (store w') = [OpCreateInformationSchema; OpUpdateDataSource].
Proof.
  destruct (createInitialInformationSchema_unsupported Samples.integrations
              Samples.Date_now Samples.machine Samples.mixpanel_source "org_1"
              Samples.world0 Samples.mixpanel_integration Samples.mixpanel_world
              sample_mixpanel_built eq_refl)
    as (w' & schemaId & Hrun & Hcols & Hschemas & _ & Hjournal).
  exists w', schemaId. repeat split; assumption.
Defined.

Lemma full_synchronization_witness :
  ∃ w' columnsDoc columnsId schemaId i1 i2 i3,
    createInitialInformationSchema Samples.integrations Samples.Date_now
      Samples.machine Samples.pg_source "org_1" Samples.world0
    = (Ok tt, w')
    ∧ informationSchemaColumns (store w') = [columnsDoc]
    ∧ columnsDoc !! "columns"
      = Some (FDocumentArray
                [(i1, Column.mk "c1" "id" "integer" "shop.public.users.id");
                 (i2, Column.mk "c2" "email" "text" "shop.public.users.email");
                 (i3, Column.mk "c3" "created_at" "timestamp"
                        "shop.public.users.created_at")])
    ∧ columnsDoc !! "id" = Some (FString columnsId)
    ∧ informationSchemas (store w')
      = [mkInformationSchemaInterface schemaId "org_1"
           [InformationSchema.mk "shop"
              [Schema.mk "public"
                 [Table.mk "users" Samples.users_columns (Some columnsId)]]]]
    ∧ dataSources (store w') !! 0%nat
      = Some (DataSourceInterface.set_settings
                (Some (<["informationSchemaId" := SValue (VStr schemaId)]>
                         Samples.pg_settings))
                Samples.pg_source)
    ∧ dataSources (store w') !! 1%nat = Some Samples.mixpanel_source
    ∧ journal (store w')
      = [OpCreateInformationSchemaColumns; OpCreateInformationSchema;
         OpUpdateDataSource].
Proof.
  destruct (full_synchronization Samples.integrations Samples.Date_now
              Samples.machine Samples.pg_source "org_1" Samples.world0
              Samples.pg_integration Samples.pg_world
              (λ _, Ok Samples.raw_rows) (λ _ _, Ok Samples.users_tree)
              Samples.raw_rows "shop" "public" "users"
              (Column.mk "c1" "id" "integer" "shop.public.users.id")
              (Column.mk "c2" "email" "text" "shop.public.users.email")
              (Column.mk "c3" "created_at" "timestamp" "shop.public.users.created_at")
              None
              sample_pg_built eq_refl eq_refl eq_refl eq_refl eq_refl)
    as (w' & columnsDoc & columnsId & schemaId & i1 & i2 & i3 & Hrun & Hcols & Hc
        & Hid & Hschemas & Hrecord & Hothers & _ & Hjournal).
  exists w', columnsDoc, columnsId, schemaId, i1, i2, i3.
  split; [exact Hrun|]. split; [exact Hcols|]. split; [exact Hc|].
  split; [exact Hid|]. split; [exact Hschemas|].
  split; [exact (Hrecord 0%nat eq_refl)|].
  split; [|exact Hjournal].
  apply (Hothers 1%nat Samples.mixpanel_source eq_refl). left. discriminate.
Defined.

Lemma testQuery_unsupported_witness :
  testQuery Samples.integrations Samples.mixpanel_source "SELECT 1" Samples.world0
  = (Throw (mkError "Unable to test query."), Samples.mixpanel_world)
  ∧ driverCalls Samples.mixpanel_world = driverCalls Samples.world0
  ∧ store Samples.mixpanel_world = store Samples.world0.
Proof.
  apply (testQuery_unsupported Samples.integrations Samples.mixpanel_source
           "SELECT 1" Samples.world0 Samples.mixpanel_integration
           Samples.mixpanel_world).
  - exact sample_mixpanel_built.
  - right. reflexivity.
Defined.

Lemma testQuery_reports_failure_witness :
  ∃ w2,
    testQuery Samples.integrations Samples.athena_source "SELECT 1" Samples.world0
    = (Ok (mkTestQueryOutcome None None (Some "Access denied")
             (Some "SELECT 1 LIMIT 5")), w2)
    ∧ driverCalls w2
      = [CallGetTestQuery "SELECT 1"; CallRunTestQuery "SELECT 1 LIMIT 5"]
    ∧ store w2 = store Samples.world0.
Proof.
  apply (testQuery_reports_failure Samples.integrations Samples.athena_source
           "SELECT 1" Samples.world0 Samples.athena_integration Samples.athena_world
           (λ q, Ok (q +:+ " LIMIT 5")) (λ _, Throw (mkError "Access denied"))
           "SELECT 1 LIMIT 5" (mkError "Access denied")).
  - exact sample_athena_built.
  - reflexivity.
  - reflexivity.
  - reflexivity.
  - reflexivity.
Defined.

Lemma createInformationSchemaColumns_document_witness :
  ∃ doc doc2 ds,
    fst (createInformationSchemaColumns Samples.Date_now Samples.machine
           Samples.users_columns "org_1" Samples.world0) = Ok doc
    ∧ doc !! "columns" = Some (FDocumentArray ds)
    ∧ ds.*2 = Samples.users_columns
    ∧ doc !! "organization" = Some (FString "org_1")
    ∧ doc !! "__v" = None ∧ doc !! "_id" = None
    ∧ fst (createInformationSchemaColumns Samples.Date_now Samples.machine [] "org_2"
             (snd (createInformationSchemaColumns Samples.Date_now Samples.machine
                     Samples.users_columns "org_1" Samples.world0))) = Ok doc2
    ∧ doc2 !! "id" ≠ doc !! "id".
Proof.
  destruct (createInformationSchemaColumns_document Samples.Date_now Samples.machine
              Samples.users_columns "org_1" Samples.world0 [] "org_2"
              (snd (createInformationSchemaColumns Samples.Date_now Samples.machine
                      Samples.users_columns "org_1" Samples.world0))
              (or_introl (N.le_refl _)))
    as (doc & doc2 & stamp & ds & Hrun & Hcols & Hds & Horg & _ & _ & Hv & Hi & _
        & Hrun2 & Hne).
  exists doc, doc2, ds. repeat split; assumption.
Defined.

(** C10, as stated, fails.  The columns of the returned document are not
    the list given: each column has become a document under an _id of its
    own, and omit takes _id off the document only, not off its columns.
    And an id can come back: in a process started anew, under a clock that
    reads what it read before, uniqid gives the stamp it gave before. *)
Lemma createInformationSchemaColumns_document_differs :
  ∃ doc w1 doc2,
    createInformationSchemaColumns Samples.stalled_clock Samples.machine
      Samples.users_columns "org_1" Samples.world0 = (Ok doc, w1)
    ∧ doc !! "columns" ≠ Some (FColumns Samples.users_columns)
    ∧ doc !! "columns"
      = Some (FDocumentArray
                [(1%N, Column.mk "c1" "id" "integer" "shop.public.users.id");
                 (2%N, Column.mk "c2" "email" "text" "shop.public.users.email");
                 (3%N, Column.mk "c3" "created_at" "timestamp"
                         "shop.public.users.created_at")])
    ∧ fst (createInformationSchemaColumns Samples.stalled_clock Samples.machine []
             "org_2" (Samples.restarted w1)) = Ok doc2
    ∧ doc2 !! "id" = doc !! "id"
    ∧ length (informationSchemaColumns
                (store (snd (createInformationSchemaColumns Samples.stalled_clock
                               Samples.machine [] "org_2" (Samples.restarted w1)))))
      = 2%nat.
Proof.
  eexists _, _, _. split; [vm_compute; reflexivity|].
  split; [intros H; vm_compute in H; discriminate H|].
  split; [vm_compute; reflexivity|].
  split; [vm_compute; reflexivity|].
  split; vm_compute; reflexivity.
Qed.

(** ** The further properties at the sample inputs *)

Lemma getSourceIntegrationObject_unknown_type_witness :
  (DataSourceInterface.type Samples.oracle_source ∉ known_types)
  ∧ getSourceIntegrationObject Samples.integrations Samples.oracle_source Samples.world0
    = (Throw (mkError "Unknown data source type: oracle"), Samples.world0).
Proof.
  assert (H : DataSourceInterface.type Samples.oracle_source ∉ known_types).
  { apply (bool_decide_unpack _). vm_compute. exact I. }
  split; [exact H|].
  apply (getSourceIntegrationObject_unknown_type Samples.integrations
           Samples.oracle_source Samples.world0 H).
Defined.

Lemma getSourceIntegrationObject_built_witness :
  SourceIntegrationInterface.organization Samples.mixpanel_integration = Some "org_1"
  ∧ SourceIntegrationInterface.datasource Samples.mixpanel_integration = Some "ds_2"
  ∧ SourceIntegrationInterface.settings Samples.mixpanel_integration = Some ∅
  ∧ heap Samples.world0 !! SourceIntegrationInterface.params Samples.mixpanel_integration
    = None
  ∧ heap Samples.mixpanel_world !! 1%positive = Some Samples.mixpanel_params.
Proof.
  destruct (getSourceIntegrationObject_built Samples.integrations
              Samples.mixpanel_source Samples.world0 Samples.mixpanel_integration
              Samples.mixpanel_world sample_mixpanel_built)
    as (Horg & Hds & Hsettings & _ & _ & Hfresh & Hheap & _).
  split; [exact Horg|]. split; [exact Hds|]. split; [exact Hsettings|].
  split; [exact Hfresh|]. rewrite Hheap. apply lookup_insert_eq.
Defined.

Lemma sample_oracle_unknown :
  getSourceIntegrationObject Samples.integrations Samples.oracle_source Samples.world0
  = (Throw (mkError "Unknown data source type: oracle"), Samples.world0).
Proof. vm_compute. reflexivity. Qed.

Lemma construction_error_propagates_witness :
  generateInformationSchema Samples.integrations Samples.oracle_source Samples.world0
  = (Throw (mkError "Unknown data source type: oracle"), Samples.world0)
  ∧ testDataSourceConnection Samples.integrations Samples.oracle_source Samples.world0
    = (Throw (mkError "Unknown data source type: oracle"), Samples.world0)
  ∧ testQuery Samples.integrations Samples.oracle_source "SELECT 1" Samples.world0
    = (Throw (mkError "Unknown data source type: oracle"), Samples.world0)
  ∧ createInitialInformationSchema Samples.integrations Samples.Date_now
      Samples.machine Samples.oracle_source "org_1" Samples.world0
    = (Throw (mkError "Unknown data source type: oracle"), Samples.world0).
Proof.
  apply (construction_error_propagates Samples.integrations Samples.Date_now
           Samples.machine Samples.oracle_source "org_1" "SELECT 1" Samples.world0
           (mkError "Unknown data source type: oracle") Samples.world0).
  exact sample_oracle_unknown.
Defined.

Lemma generateInformationSchema_outcome_witness :
  ∃ w2,
    generateInformationSchema Samples.integrations Samples.clickhouse_source
      Samples.world0
    = (Throw (mkError "Cannot read properties of null (reading 'message')"), w2)
    ∧ store w2 = store Samples.world0.
Proof.
  destruct (generateInformationSchema_outcome Samples.integrations
              Samples.clickhouse_source Samples.world0 Samples.clickhouse_integration
              Samples.clickhouse_world sample_clickhouse_built)
    as (w2 & Hrun & Hs & _).
  exists w2. split; [exact Hrun|exact Hs].
Defined.

Lemma generateInformationSchema_formats_witness :
  ∃ w2,
    generateInformationSchema Samples.integrations Samples.pg_source Samples.world0
    = (Ok (mkGenerated (Some Samples.users_tree) None), w2)
    ∧ driverCalls w2
      = [CallGetInformationSchema VUndefined; CallFormatInformationSchema "postgres"].
Proof.
  apply (generateInformationSchema_formats Samples.integrations Samples.pg_source
           Samples.world0 Samples.pg_integration Samples.pg_world
           (λ _, Ok Samples.raw_rows) (λ _ _, Ok Samples.users_tree)
           Samples.raw_rows Samples.users_tree sample_pg_built
           eq_refl eq_refl eq_refl eq_refl).
Defined.

Lemma testQuery_supported_witness :
  ∃ w2,
    store w2 = store Samples.world0
    ∧ testQuery Samples.integrations Samples.clickhouse_source EmptyString
        Samples.world0
      = (Throw (mkError "Empty query"), w2)
    ∧ driverCalls w2 = [CallGetTestQuery EmptyString].
Proof.
  destruct (testQuery_supported Samples.integrations Samples.clickhouse_source
              EmptyString Samples.world0 Samples.clickhouse_integration
              Samples.clickhouse_world
              (λ q, if String.eqb q EmptyString then Throw (mkError "Empty query")
                    else Ok q)
              (λ _, Throw (AValue (VStr "timeout")))
              sample_clickhouse_built eq_refl eq_refl)
    as (w2 & Hs & Hrun & Hcalls).
  exists w2. split; [exact Hs|]. split; [exact Hrun|exact Hcalls].
Defined.

(** The same driver on a query it accepts: runTestQuery throws a string, and
    the result has the SQL and no message. *)
Example testQuery_string_thrown :
  fst (testQuery Samples.integrations Samples.clickhouse_source "SELECT 1"
         Samples.world0)
  = Ok (mkTestQueryOutcome None None None (Some "SELECT 1")).
Proof. vm_compute. reflexivity. Qed.

Lemma testDataSourceConnection_outcome_witness :
  ∃ w2,
    testDataSourceConnection Samples.integrations Samples.athena_source Samples.world0
    = (Throw (mkError "Access denied"), w2)
    ∧ driverCalls w2 = [CallTestConnection]
    ∧ store w2 = store Samples.world0.
Proof.
  apply (testDataSourceConnection_outcome Samples.integrations Samples.athena_source
           Samples.world0 Samples.athena_integration Samples.athena_world
           sample_athena_built).
Defined.

Lemma synchronization_links_every_table_witness :
  ∃ w' tree' docs schemaId,
    createInitialInformationSchema Samples.integrations Samples.Date_now
      Samples.machine Samples.pg_source "org_1" Samples.world0
    = (Ok tt, w')
    ∧ unlinked <$> tree' = unlinked <$> Samples.users_tree
    ∧ informationSchemaColumns (store w') = docs
    ∧ length docs = 1%nat
    ∧ Forall2 (linked "org_1") (all_tables tree') docs
    ∧ informationSchemas (store w')
      = [mkInformationSchemaInterface schemaId "org_1" tree'].
Proof.
  destruct (synchronization_links_every_table Samples.integrations Samples.Date_now
              Samples.machine Samples.pg_source "org_1" Samples.world0
              Samples.pg_integration Samples.pg_world
              (λ _, Ok Samples.raw_rows) (λ _ _, Ok Samples.users_tree)
              Samples.raw_rows Samples.users_tree sample_pg_built
              eq_refl eq_refl eq_refl eq_refl)
    as (w' & tree' & docs & schemaId & Hrun & Hunl & Hcols & Hlen & Hlinked & _
        & Hschemas & _).
  exists w', tree', docs, schemaId.
  split; [exact Hrun|]. split; [exact Hunl|]. split; [exact Hcols|].
  split; [exact Hlen|]. split; [exact Hlinked|exact Hschemas].
Defined.


Lemma merge_of_redacted_copy_keeps_params_witness :
  ∃ ret w1 w2,
    getNonSensitiveParams Samples.pg_integration Samples.pg_world = (Ok ret, w1)
    ∧ mergeParams Samples.pg_integration ret w1 = (Ok tt, w2)
    ∧ heap w2 !! 1%positive = Some Samples.pg_params.
Proof.
  destruct (merge_of_redacted_copy_keeps_params Samples.pg_integration Samples.pg_world
              Samples.pg_params eq_refl)
    as (ret & w1 & w2 & Hrun1 & Hrun2 & Hp & _).
  exists ret, w1, w2. split; [exact Hrun1|]. split; [exact Hrun2|exact Hp].
Defined.

Lemma mergeParams_never_blanks_secret_witness :
  ∃ w' result,
    mergeParams Samples.login_integration 2 Samples.login_world = (Ok tt, w')
    ∧ heap w' !! 1%positive = Some result
    ∧ truthy (prop result "pass") = true.
Proof.
  apply (mergeParams_never_blanks_secret Samples.login_integration 2
           Samples.login_world Samples.login_params
           (<["pass" := VStr EmptyString]> ∅) "pass" eq_refl eq_refl).
  - constructor.
  - reflexivity.
Defined.

Lemma mergeParams_idempotent_witness :
  ∃ w1 w2,
    mergeParams Samples.login_integration 3 Samples.login_world = (Ok tt, w1)
    ∧ mergeParams Samples.login_integration 3 w1 = (Ok tt, w2)
    ∧ heap w2 = heap w1.
Proof.
  destruct (mergeParams_idempotent Samples.login_integration 3 Samples.login_world
              Samples.login_params (<["pass" := VStr "new"]> ∅) eq_refl eq_refl)
    as (w1 & w2 & H1 & H2 & Hh & _).
  { discriminate. }
  exists w1, w2. split; [exact H1|]. split; [exact H2|exact Hh].
Defined.

(** The update held at reference 5 owns __proto__ with the value null, and
    merging it twice is not merging it once: the first merge leaves the
    properties of the params as they are and takes their prototype off;
    the second then stores the key on them. *)
Example mergeParams_null_proto_twice :
  ∃ w1 w2,
    mergeParams Samples.login_integration 5 Samples.login_world = (Ok tt, w1)
    ∧ heap w1 !! 1%positive = Some Samples.login_params
    ∧ nullPrototype w1 = {[1%positive]}
    ∧ mergeParams Samples.login_integration 5 w1 = (Ok tt, w2)
    ∧ heap w2 !! 1%positive
      = Some (<["__proto__" := VNull]> Samples.login_params).
Proof.
  eexists _, _. split; [vm_compute; reflexivity|].
  split; [vm_compute; reflexivity|]. split; [vm_compute; reflexivity|].
  split; vm_compute; reflexivity.
Qed.

Lemma toy_cipher_contract : ∀ salt message passphrase,
  Samples.toy_decrypt (Samples.toy_encrypt salt message passphrase) passphrase
  = Some message.
Proof. intros salt message passphrase. apply expect_append. Qed.

Lemma decrypt_encrypt_drops_undefined_witness :
  decryptDataSourceParams "k3y" Samples.toy_decrypt
    (encryptParams "k3y" Samples.toy_encrypt "salt"
       (<["server" := VUndefined]> Samples.mixpanel_params))
  = Some (filter (λ kv : string * value, kv.2 ≠ VUndefined)
            (<["server" := VUndefined]> Samples.mixpanel_params)).
Proof.
  apply (decrypt_encrypt_drops_undefined "k3y" Samples.toy_encrypt Samples.toy_decrypt
           toy_cipher_contract).
Defined.

Lemma encryptParams_injective_witness :
  encryptParams "k3y" Samples.toy_encrypt "salt"
    (<["server" := VUndefined]> Samples.mixpanel_params)
  = encryptParams "k3y" Samples.toy_encrypt "pepper" Samples.mixpanel_params
  ∧ filter (λ kv : string * value, kv.2 ≠ VUndefined)
      (<["server" := VUndefined]> Samples.mixpanel_params)
    = filter (λ kv : string * value, kv.2 ≠ VUndefined) Samples.mixpanel_params.
Proof.
  assert (H : encryptParams "k3y" Samples.toy_encrypt "salt"
                (<["server" := VUndefined]> Samples.mixpanel_params)
              = encryptParams "k3y" Samples.toy_encrypt "pepper"
                  Samples.mixpanel_params).
  { vm_compute. reflexivity. }
  split; [exact H|].
  apply (encryptParams_injective "k3y" Samples.toy_encrypt Samples.toy_decrypt
           toy_cipher_contract "salt" "pepper" _ _ H).
Defined.

Lemma sample_clickhouse_generate :
  generateInformationSchema Samples.integrations Samples.clickhouse_source
    Samples.world0
  = (Throw (mkError "Cannot read properties of null (reading 'message')"),
     set_driverCalls [CallGetInformationSchema VUndefined] Samples.clickhouse_world).
Proof. vm_compute. reflexivity. Qed.

Lemma synchronization_without_schema_witness :
  ∃ w2,
    createInitialInformationSchema Samples.integrations Samples.Date_now
      Samples.machine Samples.clickhouse_source "org_1" Samples.world0
    = (Throw (mkError "Cannot read properties of null (reading 'message')"), w2)
    ∧ store w2 = store Samples.world0.
Proof.
  pose proof (synchronization_without_schema Samples.integrations Samples.Date_now
                Samples.machine Samples.clickhouse_source "org_1" Samples.world0) as H.
  rewrite sample_clickhouse_generate in H.
  eexists. exact H.
Defined.

Lemma redacted_copy_is_a_snapshot_witness :
  ∃ ret copy w1 w2,
    getNonSensitiveParams Samples.login_integration Samples.login_world = (Ok ret, w1)
    ∧ heap w1 !! ret = Some copy
    ∧ mergeParams Samples.login_integration 3 w1 = (Ok tt, w2)
    ∧ heap w2 !! ret = Some copy.
Proof.
  destruct (redacted_copy_is_a_snapshot Samples.login_integration 3 Samples.login_world
              Samples.login_params (<["pass" := VStr "new"]> ∅) eq_refl eq_refl)
    as (ret & copy & w1 & w2 & H1 & H2 & H3 & H4 & _).
  exists ret, copy, w1, w2. split; [exact H1|]. split; [exact H2|].
  split; [exact H3|exact H4].
Defined.
